(** * Healthcare IAM bulk user onboarding: a model of [bulk_onboard.py]

    The development embeds [HealthcareUserManager] (role registry, group
    cache, [create_user], [bulk_create_from_csv], [generate_report]) as
    executable Rocq functions over an explicit program state, and proves
    the properties of the provisioning engine and of the report aggregator.

    Modelling conventions.
    - A Python [str] is a Rocq [string]: the sequence of its UTF-8 bytes.
    - A Python [int] is a [Z]; [len] is [Z.of_nat] of a list length.
    - A Python [dict] whose iteration order is observable is an
      insertion-ordered association list ([dict]); the files of the file
      system and the rows handed out by [csv.DictReader] are [gmap]s.
    - [None] is [option]'s [None]; truthiness is written out ([str_bool]).
    - Effects (clock, directory client, standard output, files) are threaded
      through a state-and-exception monad [M]; an exception leaves the
      mutations done before it in place, as in Python.
    - The directory client, the clock and the serialisers ([csv], [json],
      float formatting) are external: they are the fields of [Platform]. *)

From Stdlib Require Import ZArith Lia.
From stdpp Require Import base option list gmap strings sorting pretty.

Open Scope Z_scope.

(** ** Python string primitives *)

(** The newline character, written [\n] in the source. *)
Definition nl : string := String (Ascii.ascii_of_nat 10) "".

(** [bool(s)] of a string: the empty string is falsy. *)
Definition str_bool (s : string) : bool :=
  match s with
  | "" => false
  | String _ _ => true
  end.

(** [a or b] on strings. *)
Definition str_or (a b : string) : string := if str_bool a then a else b.

(** [sep.join(l)]. *)
Fixpoint str_join (sep : string) (l : list string) : string :=
  match l with
  | [] => ""
  | [x] => x
  | x :: l' => x +:+ sep +:+ str_join sep l'
  end.

(** [s * n]. *)
Fixpoint str_mul (s : string) (n : nat) : string :=
  match n with
  | O => ""
  | S n' => s +:+ str_mul s n'
  end.

(** [s.startswith(p)]. *)
Fixpoint startswith (p s : string) : bool :=
  match p, s with
  | "", _ => true
  | String a p', String b s' => if decide (a = b) then startswith p' s' else false
  | String _ _, "" => false
  end.

(** [sub in s]. *)
Fixpoint str_contains (sub s : string) : bool :=
  startswith sub s ||
  match s with
  | "" => false
  | String _ s' => str_contains sub s'
  end.

(** A character, given by the bytes of its UTF-8 encoding. *)
Definition utf8 (bytes : list N) : string :=
  foldr (fun b s => String (Ascii.ascii_of_N b) s) "" bytes.

(** The characters for which [str.isspace] holds, which are the ones that
    [str.strip()] removes: U+0009 to U+000D, U+001C to U+001F, U+0020,
    U+0085, U+00A0, U+1680, U+2000 to U+200A, U+2028, U+2029, U+202F,
    U+205F and U+3000. *)
Definition whitespace : list string :=
  utf8 <$> [ [9]; [10]; [11]; [12]; [13]; [28]; [29]; [30]; [31]; [32];
             [194; 133]; [194; 160]; [225; 154; 128];
             [226; 128; 128]; [226; 128; 129]; [226; 128; 130]; [226; 128; 131];
             [226; 128; 132]; [226; 128; 133]; [226; 128; 134]; [226; 128; 135];
             [226; 128; 136]; [226; 128; 137]; [226; 128; 138];
             [226; 128; 168]; [226; 128; 169]; [226; 128; 175];
             [226; 129; 159]; [227; 128; 128] ]%N.

(** [ch.isspace()] of one character. *)
Definition isspace (ch : string) : bool := bool_decide (ch ∈ whitespace).

(** The string without the characters at its start that [space] accepts.
    A whitespace character is one, two or three bytes long, and no
    encoding of one starts another. *)
Fixpoint strip_left (space : string -> bool) (s : string) : string :=
  match s with
  | "" => ""
  | String a s1 =>
    if space (String a "") then strip_left space s1
    else
      match s1 with
      | "" => s
      | String b s2 =>
        if space (String a (String b "")) then strip_left space s2
        else
          match s2 with
          | "" => s
          | String c s3 =>
            if space (String a (String b (String c ""))) then strip_left space s3
            else s
          end
      end
  end.

(** [s.lstrip()]. *)
Definition lstrip (s : string) : string := strip_left isspace s.

(** [s.rstrip()]: the same from the end, where the bytes of a character
    come in reverse. *)
Definition rstrip (s : string) : string :=
  String.rev (strip_left (fun ch => isspace (String.rev ch)) (String.rev s)).

(** [s.strip()]. *)
Definition strip (s : string) : string := rstrip (lstrip s).

(** [s.replace(old, new)]: the occurrences of [old] are replaced from left
    to right, without overlap. [skip] counts the characters of a match that
    are still to be dropped. With an empty [old], Python puts [new] before
    every character and at the end. *)
Fixpoint replace_from (old new : string) (skip : nat) (s : string) : string :=
  match s with
  | "" => ""
  | String c s' =>
    match skip with
    | S k => replace_from old new k s'
    | O =>
      if startswith old s
      then new +:+ replace_from old new (String.length old - 1) s'
      else String c (replace_from old new O s')
    end
  end.

Fixpoint intersperse_before (new s : string) : string :=
  match s with
  | "" => new
  | String c s' => new +:+ String c (intersperse_before new s')
  end.

Definition replace (old new s : string) : string :=
  match old with
  | "" => intersperse_before new s
  | String _ _ => replace_from old new O s
  end.

(** [str(n)] of an integer, and zero padding for [%02d]-like fields. *)
Definition str_of_int (n : Z) : string := pretty n.

Definition zfill (width : nat) (s : string) : string :=
  str_mul "0" (width - String.length s) +:+ s.

(** [str(b)] of a boolean and [str(o)] of an optional string. *)
Definition str_of_bool (b : bool) : string := if b then "True" else "False".

Definition str_of_opt (o : option string) : string := default "None" o.

(** ** Insertion-ordered dictionaries *)

Definition dict (V : Type) : Type := list (string * V).

(** [d.get(k)]. *)
Fixpoint dict_get {V} (d : dict V) (k : string) : option V :=
  match d with
  | [] => None
  | (k', v) :: d' => if decide (k' = k) then Some v else dict_get d' k
  end.

(** [d[k] = v]: an existing key keeps its position, a new key goes last. *)
Fixpoint dict_set {V} (d : dict V) (k : string) (v : V) : dict V :=
  match d with
  | [] => [(k, v)]
  | (k', v') :: d' =>
    if decide (k' = k) then (k', v) :: d' else (k', v') :: dict_set d' k v
  end.

(** [k in d]. *)
Definition dict_in {V} (k : string) (d : dict V) : bool :=
  bool_decide (is_Some (dict_get d k)).

Definition dict_keys {V} (d : dict V) : list string := d.*1.


Definition dict_items {V} (d : dict V) : list (string * V) := d.

(** ** Dates *)

Module datetime.
Record t := mk {
  year : nat; month : nat; day : nat;
  hour : nat; minute : nat; second : nat; microsecond : nat }.

Definition field (width : nat) (n : nat) : string := zfill width (pretty n).

(** [d.strftime('%Y-%m-%d')]; the year is written with four digits, as it
    is for the years a clock returns. *)
Definition strftime_Ymd (d : t) : string :=
  field 4 (year d) +:+ "-" +:+ field 2 (month d) +:+ "-" +:+ field 2 (day d).

(** [d.isoformat()]: the microseconds are left out when they are zero. *)
Definition isoformat (d : t) : string :=
  strftime_Ymd d +:+ "T" +:+ field 2 (hour d) +:+ ":" +:+ field 2 (minute d)
  +:+ ":" +:+ field 2 (second d)
  +:+ (if decide (microsecond d = O) then "" else "." +:+ field 6 (microsecond d)).
End datetime.

(** ** Exceptions *)

(** The exception classes the program distinguishes. A [ServiceError]
    carries its [message] attribute and [str(e)]; [Exception] stands for any
    other subclass of [Exception] and carries [str(e)]; [SystemExit] is
    raised by [sys.exit] and is not a subclass of [Exception]. *)
Inductive exn :=
| ServiceError (message : string) (str : string)
| FileNotFoundError (str : string)
| Exception (str : string)
| SystemExit (code : Z).

(** [str(e)]. *)
Definition exn_str (e : exn) : string :=
  match e with
  | ServiceError _ s => s
  | FileNotFoundError s => s
  | Exception s => s
  | SystemExit c => str_of_int c
  end.

(** [isinstance(e, Exception)]. *)
Definition is_Exception (e : exn) : bool :=
  match e with
  | SystemExit _ => false
  | _ => true
  end.

Inductive Res (A : Type) :=
| Ok (a : A)
| Raise (e : exn).
Arguments Ok {A} a.
Arguments Raise {A} e.

(** A failure of a directory call: a structured service error carrying
    [e.message] and [str(e)], or any other [Exception] carrying [str(e)].
    Interrupts outside the [Exception] hierarchy are not modelled. *)
Inductive fault :=
| ServiceFault (message : string) (str : string)
| OtherFault (str : string).

Definition exn_of_fault (f : fault) : exn :=
  match f with
  | ServiceFault m s => ServiceError m s
  | OtherFault s => Exception s
  end.

(** ** The directory service's data *)

Module CreateUserDetails.
Record t := mk {
  compartment_id : string;
  name : string;
  description : string;
  email : string;
  freeform_tags : dict string }.
End CreateUserDetails.

Module AddUserToGroupDetails.
Record t := mk { user_id : string; group_id : string }.
End AddUserToGroupDetails.

Module UpdateUserCapabilitiesDetails.
Record t := mk { can_use_console_password : bool; can_use_api_keys : bool }.
End UpdateUserCapabilitiesDetails.

Module Group.
Record t := mk { name : string; id : string }.
End Group.

(** ** The outcome of provisioning one user: the [result] dictionary *)

Module Result.
Record t := mk {
  username : string;
  email : string;
  role : string;
  department : string;
  success : bool;
  user_ocid : option string;
  group_name : option string;
  error : option string;
  timestamp : string }.

Definition set_user_ocid (v : option string) (r : t) : t :=
  mk (username r) (email r) (role r) (department r) (success r)
     v (group_name r) (error r) (timestamp r).

Definition set_group_name (v : option string) (r : t) : t :=
  mk (username r) (email r) (role r) (department r) (success r)
     (user_ocid r) v (error r) (timestamp r).

Definition set_error (v : option string) (r : t) : t :=
  mk (username r) (email r) (role r) (department r) (success r)
     (user_ocid r) (group_name r) v (timestamp r).

Definition set_success (v : bool) (r : t) : t :=
  mk (username r) (email r) (role r) (department r) v
     (user_ocid r) (group_name r) (error r) (timestamp r).
End Result.

(** ** Calls to the directory client, as they are observed *)

Inductive Event :=
| EvListGroups (compartment_id : string) (r : list Group.t + fault)
| EvCreateUser (details : CreateUserDetails.t) (r : string + fault)
| EvAddUserToGroup (details : AddUserToGroupDetails.t) (r : unit + fault)
| EvUpdateUserCapabilities (user_id : string)
    (details : UpdateUserCapabilitiesDetails.t) (r : unit + fault).

(** A row as [csv.DictReader] yields it: a dictionary from the header's
    field names to the row's values, [None] where the row is too short. *)
Abbreviation Row := (gmap string (option string)).

(** The audit document handed to [json.dump]. *)
Module Audit.
Record t := mk {
  operation : string;
  timestamp : string;
  total : Z;
  successful : Z;
  failed : Z;
  results : list Result.t }.
End Audit.

(** ** The platform: everything the program calls but does not define

    [W] is the state of the outside world (the directory, the clock). Each
    operation returns its answer and the world after it. *)
Class Platform (W : Type) := {
  (** [datetime.utcnow()] *)
  clock_utcnow : W -> datetime.t * W;
  (** [identity_client.list_groups(compartment_id=...).data] *)
  client_list_groups : string -> W -> (list Group.t + fault) * W;
  (** [identity_client.create_user(details).data.id] *)
  client_create_user : CreateUserDetails.t -> W -> (string + fault) * W;
  (** [identity_client.add_user_to_group(details)] *)
  client_add_user_to_group : AddUserToGroupDetails.t -> W -> (unit + fault) * W;
  (** [identity_client.update_user_capabilities(user_id, details)] *)
  client_update_user_capabilities :
    string -> UpdateUserCapabilitiesDetails.t -> W -> (unit + fault) * W;
  (** what [csv.DictReader] makes of a file's text: [fieldnames]
      ([None] for an empty file) and the rows; reading the text is taken
      not to fail *)
  csv_read : string -> option (list string) * list Row;
  (** what [csv.DictWriter(f, fieldnames)] writes for [writeheader()]
      followed by [writerows(rows)] *)
  csv_write : list string -> list Result.t -> string;
  (** what [json.dump(doc, f, indent=2)] writes *)
  json_dump : Audit.t -> string;
  (** [f"{a/b*100:.1f}"] for [b <> 0]: floating-point formatting *)
  format_percent : Z -> Z -> string;
  (** [open(path, 'w')]: [None] when the file is opened, [Some msg] when
      the call raises an [OSError] whose [str] is [msg] *)
  open_w_error : string -> W -> option string;
  (** the order in which a [set] of strings is iterated: it depends on the
      hash seed of the process *)
  set_iter : list string -> list string
}.

(** ** Program state and the monad of effects *)

Module State.
Record t (W : Type) := mk {
  world : W;
  calls : list Event;
  stdout : list string;
  files : gmap string string }.
Arguments mk {W}.
Arguments world {W}.
Arguments calls {W}.
Arguments stdout {W}.
Arguments files {W}.
End State.

Definition M (S A : Type) : Type := S -> Res A * S.

Definition ret {S A} (a : A) : M S A := fun s => (Ok a, s).

Definition bind {S A B} (c : M S A) (k : A -> M S B) : M S B :=
  fun s =>
    match c s with
    | (Ok a, s') => k a s'
    | (Raise e, s') => (Raise e, s')
    end.

Definition raise {S A} (e : exn) : M S A := fun s => (Raise e, s).

(** [try: body except ...: handler]: [handler e] is [None] when no clause
    matches [e]. The state reached by [body] is kept. *)
Definition try_except {S A} (body : M S A) (handler : exn -> option (M S A)) : M S A :=
  fun s =>
    match body s with
    | (Ok a, s') => (Ok a, s')
    | (Raise e, s') =>
      match handler e with
      | Some h => h s'
      | None => (Raise e, s')
      end
    end.

(** Run a computation on the program state from a block that also has a
    local variable of type [L]. *)
Definition lift {L S A} (c : M S A) : M (L * S) A :=
  fun ls => let '(r, s') := c ls.2 in (r, (ls.1, s')).

Definition get_local {L S} : M (L * S) L := fun ls => (Ok ls.1, ls).

Definition modify_local {L S} (f : L -> L) : M (L * S) unit :=
  fun ls => (Ok tt, (f ls.1, ls.2)).

(** Enter a block with the local variable set to [l]. *)
Definition with_local {L S A} (l : L) (c : M (L * S) A) : M S A :=
  fun s => let '(r, ls) := c (l, s) in (r, ls.2).

Declare Scope monad_scope.
Delimit Scope monad_scope with monad.
Notation "x <- c ;; k" := (bind c (fun x => k))
  (at level 100, c at next level, right associativity) : monad_scope.
Notation "c ;; k" := (bind c (fun _ => k))
  (at level 100, right associativity) : monad_scope.
Open Scope monad_scope.

(** [sys.exit(code)]. *)
Definition sys_exit {S A} (code : Z) : M S A := raise (SystemExit code).

Section Program.
Context {W : Type} {platform : Platform W}.

Local Abbreviation St := (State.t W).

(** [print(line)]. *)
Definition print (line : string) : M St unit :=
  fun s => (Ok tt, State.mk (State.world s) (State.calls s)
                            (State.stdout s ++ [line]) (State.files s)).

(** [datetime.utcnow()]. *)
Definition utcnow : M St datetime.t :=
  fun s =>
    let '(d, w) := clock_utcnow (State.world s) in
    (Ok d, State.mk w (State.calls s) (State.stdout s) (State.files s)).

(** A call to the directory client: the world moves on, the call and its
    answer are recorded, a fault is raised as the exception it stands for. *)
Definition client_call {A} (op : W -> (A + fault) * W) (ev : A + fault -> Event) : M St A :=
  fun s =>
    let '(r, w) := op (State.world s) in
    let s' := State.mk w (State.calls s ++ [ev r]) (State.stdout s) (State.files s) in
    match r with
    | inl a => (Ok a, s')
    | inr f => (Raise (exn_of_fault f), s')
    end.

Definition identity_list_groups (compartment_id : string) : M St (list Group.t) :=
  client_call (client_list_groups compartment_id) (EvListGroups compartment_id).

Definition identity_create_user (details : CreateUserDetails.t) : M St string :=
  client_call (client_create_user details) (EvCreateUser details).

Definition identity_add_user_to_group (details : AddUserToGroupDetails.t) : M St unit :=
  client_call (client_add_user_to_group details) (EvAddUserToGroup details).

Definition identity_update_user_capabilities (user_id : string)
    (details : UpdateUserCapabilitiesDetails.t) : M St unit :=
  client_call (client_update_user_capabilities user_id details)
              (EvUpdateUserCapabilities user_id details).

(** ** [HealthcareUserManager] *)

(** Healthcare role to OCI group mapping. *)
Definition ROLE_MAPPINGS : dict string :=
  [ ("SecurityAdmin", "HC-Security-Admins");
    ("CloudEngineer", "HC-Cloud-Engineers");
    ("ClinicalAdmin", "HC-Clinical-App-Admins");
    ("ComplianceAuditor", "HC-Compliance-Auditors");
    ("Developer", "HC-Clinical-Developers");
    ("DataAnalyst", "HC-Data-Analysts") ].

(** The attributes of [self] that the methods read. *)
Record Manager := {
  tenancy_id : string;
  group_cache : dict string }.

(** [_load_groups]: load and cache all IAM groups; any failure ends the
    program. The cache starts empty and is returned when it is filled. *)
Definition _load_groups (tenancy : string) : M St (dict string) :=
  print (nl +:+ "📋 Loading IAM groups...") ;;
  try_except
    (groups <- identity_list_groups tenancy ;;
     let cache := foldl (fun c g => dict_set c (Group.name g) (Group.id g)) [] groups in
     print ("✓ Loaded " +:+ str_of_int (Z.of_nat (length cache)) +:+ " groups") ;;
     let hc_groups := filter (fun g => startswith "HC-" g = true) (dict_keys cache) in
     (if bool_decide (hc_groups = [])
      then ret tt
      else print ("  Healthcare groups: " +:+ str_join ", " hc_groups)) ;;
     ret cache)
    (fun e =>
       if is_Exception e
       then Some (print ("✗ Error loading groups: " +:+ exn_str e) ;; sys_exit 1)
       else None).

(** The [try] block of [create_user]; the local variable is [result]. *)
Definition create_user_try (self : Manager)
    (username email role description department group_name : string)
    : M (Result.t * St) Result.t :=
  (* Build user description *)
  let user_desc := str_or description ("Healthcare " +:+ role) in
  let user_desc :=
    if str_bool department then user_desc +:+ " - " +:+ department else user_desc in
  (* Create user *)
  today <- lift utcnow ;;
  let user_details :=
    CreateUserDetails.mk (tenancy_id self) username user_desc email
      [ ("Role", role);
        ("Department", str_or department "Unspecified");
        ("CreatedBy", "Automated-Provisioning");
        ("CreatedDate", datetime.strftime_Ymd today) ] in
  user_ocid <- lift (identity_create_user user_details) ;;
  modify_local (Result.set_user_ocid (Some user_ocid)) ;;
  lift (print ("  ✓ User created: " +:+ username)) ;;
  (* Add to appropriate group *)
  match dict_get (group_cache self) group_name with
  | None => raise (Exception ("'" +:+ group_name +:+ "'"))
  | Some group_ocid =>
    let add_user_details := AddUserToGroupDetails.mk user_ocid group_ocid in
    lift (identity_add_user_to_group add_user_details) ;;
    lift (print ("  ✓ Added to group: " +:+ group_name)) ;;
    (* Configure user capabilities *)
    let capabilities := UpdateUserCapabilitiesDetails.mk true false in
    lift (identity_update_user_capabilities user_ocid capabilities) ;;
    lift (print "  ✓ Configured capabilities (Console: Yes, API Keys: No)") ;;
    modify_local (Result.set_success true) ;;
    get_local
  end.

(** The [except] clauses of [create_user]. *)
Definition create_user_except (e : exn) : option (M (Result.t * St) Result.t) :=
  match e with
  | ServiceError message _ =>
    Some (modify_local (Result.set_error (Some ("OCI Service Error: " +:+ message))) ;;
          get_local)
  | FileNotFoundError _ | Exception _ =>
    Some (modify_local (Result.set_error (Some ("Unexpected error: " +:+ exn_str e))) ;;
          get_local)
  | SystemExit _ => None
  end.

(** [create_user]: create a healthcare user with the appropriate role. *)
Definition create_user (self : Manager)
    (username email role description department : string) : M St Result.t :=
  now <- utcnow ;;
  let result :=
    Result.mk username email role department false None None None
              (datetime.isoformat now) in
  (* Map role to group *)
  match dict_get ROLE_MAPPINGS role with
  | None | Some "" =>
    ret (Result.set_error
           (Some ("Invalid role: " +:+ role +:+ ". Valid roles: "
                  +:+ str_join ", " (dict_keys ROLE_MAPPINGS))) result)
  | Some group_name =>
    if negb (dict_in group_name (group_cache self))
    then ret (Result.set_error (Some ("Group not found in OCI: " +:+ group_name)) result)
    else
      with_local (Result.set_group_name (Some group_name) result)
        (try_except
           (create_user_try self username email role description department group_name)
           create_user_except)
  end.

(** [row[key].strip()]: a missing key is a [KeyError], a value [None] has
    no [strip]. *)
Definition row_item_strip (row : Row) (key : string) : M St string :=
  match row !! key with
  | None => raise (Exception ("'" +:+ key +:+ "'"))
  | Some None => raise (Exception "'NoneType' object has no attribute 'strip'")
  | Some (Some v) => ret (strip v)
  end.

(** [row.get(key, '').strip()]. *)
Definition row_get_strip (row : Row) (key : string) : M St string :=
  match row !! key with
  | None => ret (strip "")
  | Some None => raise (Exception "'NoneType' object has no attribute 'strip'")
  | Some (Some v) => ret (strip v)
  end.

(** The body of the loop of [bulk_create_from_csv] for one row. *)
Definition process_row (self : Manager) (idx : Z) (row : Row) : M St Result.t :=
  username <- row_item_strip row "username" ;;
  email <- row_item_strip row "email" ;;
  role <- row_item_strip row "role" ;;
  department <- row_get_strip row "department" ;;
  description <- row_get_strip row "description" ;;
  print (nl +:+ "[" +:+ str_of_int idx +:+ "] Processing: " +:+ username
         +:+ " (" +:+ role +:+ ")") ;;
  result <- create_user self username email role description department ;;
  (if Result.success result
   then print ("  ✓ SUCCESS - OCID: " +:+ str_of_opt (Result.user_ocid result))
   else print ("  ✗ FAILED - " +:+ str_of_opt (Result.error result))) ;;
  ret result.

(** [for idx, row in enumerate(reader, idx): ...; results.append(result)]. *)
Fixpoint process_rows (self : Manager) (idx : Z) (rows : list Row)
    (results : list Result.t) : M St (list Result.t) :=
  match rows with
  | [] => ret results
  | row :: rows' =>
    result <- process_row self idx row ;;
    process_rows self (idx + 1) rows' (results ++ [result])
  end.

Definition required_headers : list string := ["username"; "email"; "role"].

(** [open(path, 'r')] followed by [csv.DictReader(f)]. *)
Definition open_csv (path : string) : M St (option (list string) * list Row) :=
  fun s =>
    match State.files s !! path with
    | None =>
      (Raise (FileNotFoundError
                ("[Errno 2] No such file or directory: '" +:+ path +:+ "'")), s)
    | Some text => (Ok (csv_read text), s)
    end.

(** [bulk_create_from_csv]: create multiple users from a CSV file. *)
Definition bulk_create_from_csv (self : Manager) (csv_file : string)
    : M St (list Result.t) :=
  print (nl +:+ "📄 Processing CSV file: " +:+ csv_file) ;;
  print (str_mul "-" 60) ;;
  try_except
    (reader <- open_csv csv_file ;;
     (* Validate headers *)
     match reader.1 with
     | None => raise (Exception "'NoneType' object is not iterable")
     | Some fieldnames =>
       (if forallb (fun h => bool_decide (h ∈ fieldnames)) required_headers
        then ret tt
        else
          print ("✗ Error: CSV must have headers: "
                 +:+ str_join ", " (set_iter required_headers)) ;;
          sys_exit 1) ;;
       process_rows self 1 reader.2 []
     end)
    (fun e =>
       match e with
       | FileNotFoundError _ =>
         Some (print ("✗ Error: CSV file not found: " +:+ csv_file) ;; sys_exit 1)
       | ServiceError _ _ | Exception _ =>
         Some (print ("✗ Error reading CSV: " +:+ exn_str e) ;; sys_exit 1)
       | SystemExit _ => None
       end).

(** ** [generate_report] *)

(** [len(results)]. *)
Definition total (results : list Result.t) : Z := Z.of_nat (length results).

(** [sum(1 for r in results if r['success'])]. *)
Definition successful (results : list Result.t) : Z :=
  foldl (fun acc r => if Result.success r then acc + 1 else acc) 0 results.

(** [total - successful]. *)
Definition failed (results : list Result.t) : Z := total results - successful results.

(** [f"{a/b*100:.1f}"]: the division raises [ZeroDivisionError] on [b = 0]. *)
Definition percent (a b : Z) : M St string :=
  if decide (b = 0) then raise (Exception "division by zero")
  else ret (format_percent a b).

(** The body of the loop that fills [role_counts]. *)
Definition count_step (role_counts : dict Z) (r : Result.t) : dict Z :=
  if Result.success r
  then
    let role := Result.role r in
    dict_set role_counts role (default 0 (dict_get role_counts role) + 1)
  else role_counts.

(** [role_counts = {}] followed by the loop over [results]. *)
Definition count_roles (results : list Result.t) : dict Z :=
  foldl count_step [] results.

(** [a <= b] on [(str, int)] tuples: the first components decide, the
    second ones break a tie. *)
Definition tuple_leb (a b : string * Z) : bool :=
  String.ltb a.1 b.1 || (bool_decide (a.1 = b.1) && (a.2 <=? b.2)).

Definition tuple_le (a b : string * Z) : Prop := tuple_leb a b = true.

#[global] Instance tuple_le_dec : RelDecision tuple_le.
Proof. intros a b. unfold tuple_le. apply _. Defined.

(** [sorted(items)]. *)
Definition sorted (items : list (string * Z)) : list (string * Z) :=
  merge_sort tuple_le items.

(** [for x in l: print(line(x))]. *)
Fixpoint print_each {A} (line : A -> string) (l : list A) : M St unit :=
  match l with
  | [] => ret tt
  | x :: l' => print (line x) ;; print_each line l'
  end.

Definition role_line (rc : string * Z) : string :=
  "  " +:+ rc.1 +:+ ": " +:+ str_of_int rc.2.

(** The block that shows the role breakdown. *)
Definition show_role_breakdown (results : list Result.t) : M St unit :=
  if 0 <? successful results
  then
    let role_counts := count_roles results in
    print (nl +:+ "📋 Users by Role:") ;;
    print_each role_line (sorted (dict_items role_counts))
  else ret tt.

Definition failure_line (r : Result.t) : string :=
  "  - " +:+ Result.username r +:+ " (" +:+ Result.role r +:+ "): "
  +:+ str_of_opt (Result.error r).

(** [for r in results: if not r['success']: print(...)]. *)
Fixpoint print_failures (results : list Result.t) : M St unit :=
  match results with
  | [] => ret tt
  | r :: results' =>
    (if negb (Result.success r) then print (failure_line r) else ret tt) ;;
    print_failures results'
  end.

(** The block that shows the failures. *)
Definition show_failures (results : list Result.t) : M St unit :=
  if 0 <? failed results
  then print (nl +:+ "❌ Failed Users:") ;; print_failures results
  else ret tt.

(** [open(path, 'w')]: the call fails, or the file is created or truncated. *)
Definition open_w (path : string) : M St unit :=
  fun s =>
    match open_w_error path (State.world s) with
    | Some msg => (Raise (Exception msg), s)
    | None =>
      (Ok tt, State.mk (State.world s) (State.calls s) (State.stdout s)
                       (<[path := ""]> (State.files s)))
    end.

(** Everything written to the open file [path] until it is closed. *)
Definition file_write (path : string) (text : string) : M St unit :=
  fun s =>
    (Ok tt, State.mk (State.world s) (State.calls s) (State.stdout s)
                     (<[path := text]> (State.files s))).

Definition report_fieldnames : list string :=
  ["timestamp"; "username"; "email"; "role"; "department"; "group_name";
   "success"; "user_ocid"; "error"].

(** The handler [except Exception as e: print(prefix + str(e))]. *)
Definition except_print (prefix : string) (e : exn) : option (M St unit) :=
  if is_Exception e then Some (print (prefix +:+ exn_str e)) else None.

(** The block that writes the detailed CSV report. *)
Definition write_detail_report (results : list Result.t)
    (output_file : option string) : M St unit :=
  match output_file with
  | Some path =>
    if str_bool path
    then
      try_except
        (open_w path ;;
         file_write path (csv_write report_fieldnames results) ;;
         print (nl +:+ "✓ Detailed report saved: " +:+ path))
        (except_print "✗ Error writing report: ")
    else ret tt
  | None => ret tt
  end.

(** [output_file.replace('.csv', '_audit.json') if output_file else 'audit.json']. *)
Definition audit_file_of (output_file : option string) : string :=
  match output_file with
  | Some path => if str_bool path then replace ".csv" "_audit.json" path else "audit.json"
  | None => "audit.json"
  end.

(** The block that writes the JSON audit log. The file is opened before
    the document, with its timestamp, is built. *)
Definition write_audit_log (results : list Result.t)
    (output_file : option string) : M St unit :=
  let audit_file := audit_file_of output_file in
  try_except
    (open_w audit_file ;;
     now <- utcnow ;;
     let doc :=
       Audit.mk "bulk_user_onboarding" (datetime.isoformat now)
                (total results) (successful results) (failed results) results in
     file_write audit_file (json_dump doc) ;;
     print ("✓ Audit log saved: " +:+ audit_file))
    (except_print "✗ Error writing audit log: ").

(** The two summary lines that show a percentage. *)
Definition successful_line (results : list Result.t) : M St string :=
  if 0 <? total results
  then
    p <- percent (successful results) (total results) ;;
    ret ("✓ Successful: " +:+ str_of_int (successful results) +:+ " (" +:+ p +:+ "%)")
  else ret "No users processed".

Definition failed_line (results : list Result.t) : M St string :=
  if 0 <? total results
  then
    p <- percent (failed results) (total results) ;;
    ret ("✗ Failed: " +:+ str_of_int (failed results) +:+ " (" +:+ p +:+ "%)")
  else ret "".

(** The summary block printed first. *)
Definition show_summary (results : list Result.t) : M St unit :=
  print (nl +:+ str_mul "=" 60) ;;
  print "📊 BULK ONBOARDING SUMMARY" ;;
  print (str_mul "=" 60) ;;
  print ("Total users processed: " +:+ str_of_int (total results)) ;;
  l1 <- successful_line results ;;
  print l1 ;;
  l2 <- failed_line results ;;
  print l2 ;;
  print (str_mul "=" 60).

(** [generate_report]: generate the summary report of a bulk operation. *)
Definition generate_report (results : list Result.t)
    (output_file : option string) : M St unit :=
  show_summary results ;;
  show_role_breakdown results ;;
  show_failures results ;;
  write_detail_report results output_file ;;
  write_audit_log results output_file.

End Program.

(** ** A simulated platform, to run the program on concrete inputs

    The world holds a clock and one script per directory operation: each
    call consumes the next scripted answer and succeeds when its script is
    exhausted. *)

Module Sim.
Record world := mk {
  ticks : nat;
  groups : list Group.t + fault;
  create_script : list (string + fault);
  add_script : list (unit + fault);
  caps_script : list (unit + fault);
  read_only : list string }.

Definition now (w : world) : datetime.t :=
  datetime.mk 2024 3 (1 + ticks w / 60) 9 (ticks w `mod` 60) 0 0.

Definition tick (w : world) : world :=
  mk (S (ticks w)) (groups w) (create_script w) (add_script w) (caps_script w)
     (read_only w).

Definition next {A} (dflt : A) (script : list (A + fault)) : (A + fault) * list (A + fault) :=
  match script with
  | [] => (inl dflt, [])
  | r :: script' => (r, script')
  end.

Definition do_create (details : CreateUserDetails.t) (w : world) : (string + fault) * world :=
  let '(r, sc) := next ("ocid1.user.oc1.." +:+ CreateUserDetails.name details)
                       (create_script w) in
  (r, mk (ticks w) (groups w) sc (add_script w) (caps_script w) (read_only w)).

Definition do_add (details : AddUserToGroupDetails.t) (w : world) : (unit + fault) * world :=
  let '(r, sc) := next tt (add_script w) in
  (r, mk (ticks w) (groups w) (create_script w) sc (caps_script w) (read_only w)).

Definition do_caps (user_id : string) (details : UpdateUserCapabilitiesDetails.t)
    (w : world) : (unit + fault) * world :=
  let '(r, sc) := next tt (caps_script w) in
  (r, mk (ticks w) (groups w) (create_script w) (add_script w) sc (read_only w)).

(** Fields of a line, separated by [sep]; no quoting. *)
Fixpoint split_go (sep : Ascii.ascii) (cur : string) (s : string) : list string :=
  match s with
  | "" => [String.rev cur]
  | String c s' =>
    if decide (c = sep) then String.rev cur :: split_go sep "" s'
    else split_go sep (String c cur) s'
  end.

Definition split (sep : Ascii.ascii) (s : string) : list string := split_go sep "" s.

Definition comma : Ascii.ascii := Ascii.ascii_of_nat 44.

Definition row_of (header : list string) (line : string) : Row :=
  let fields := split comma line in
  list_to_map (imap (fun i h => (h, fields !! i)) header).

Definition read (text : string) : option (list string) * list Row :=
  match filter (fun l => l <> "") (split (Ascii.ascii_of_nat 10) text) with
  | [] => (None, [])
  | h :: lines => let header := split comma h in (Some header, row_of header <$> lines)
  end.

Definition cells (r : Result.t) : list string :=
  [ Result.timestamp r; Result.username r; Result.email r; Result.role r;
    Result.department r; default "" (Result.group_name r);
    str_of_bool (Result.success r); default "" (Result.user_ocid r);
    default "" (Result.error r) ].

Definition write (fieldnames : list string) (rows : list Result.t) : string :=
  str_join nl (str_join "," fieldnames :: map (fun r => str_join "," (cells r)) rows) +:+ nl.

Definition dump (doc : Audit.t) : string :=
  "{operation: " +:+ Audit.operation doc +:+ ", timestamp: " +:+ Audit.timestamp doc
  +:+ ", total: " +:+ str_of_int (Audit.total doc)
  +:+ ", successful: " +:+ str_of_int (Audit.successful doc)
  +:+ ", failed: " +:+ str_of_int (Audit.failed doc)
  +:+ ", results: ["
  +:+ str_join "; " (map (fun r => str_join "," (cells r)) (Audit.results doc))
  +:+ "]}".

(** One decimal, truncated: a stand-in for the float formatting. *)
Definition pct (a b : Z) : string :=
  let tenths := a * 1000 / b in
  str_of_int (tenths / 10) +:+ "." +:+ str_of_int (tenths `mod` 10).

Definition open_error (path : string) (w : world) : option string :=
  if bool_decide (path ∈ read_only w)
  then Some ("[Errno 13] Permission denied: '" +:+ path +:+ "'")
  else None.

#[global] Instance platform : Platform world := {|
  clock_utcnow w := (now w, tick w);
  client_list_groups _ w := (groups w, w);
  client_create_user := do_create;
  client_add_user_to_group := do_add;
  client_update_user_capabilities := do_caps;
  csv_read := read;
  csv_write := write;
  json_dump := dump;
  format_percent := pct;
  open_w_error := open_error;
  set_iter l := l
|}.

Definition hospital_groups : list Group.t :=
  [ Group.mk "Administrators" "ocid1.group.oc1..admin";
    Group.mk "HC-Clinical-App-Admins" "ocid1.group.oc1..clinical";
    Group.mk "HC-Data-Analysts" "ocid1.group.oc1..analysts" ].

Definition manager : Manager :=
  {| tenancy_id := "ocid1.tenancy.oc1..hospital";
     group_cache := [ ("Administrators", "ocid1.group.oc1..admin");
                      ("HC-Clinical-App-Admins", "ocid1.group.oc1..clinical");
                      ("HC-Data-Analysts", "ocid1.group.oc1..analysts") ] |}.

Definition users_csv : string :=
  "username,email,role,department" +:+ nl
  +:+ " alice ,a@h.org,ClinicalAdmin,Cardiology" +:+ nl
  +:+ "bob,b@h.org,Unknown," +:+ nl
  +:+ "carol,c@h.org,DataAnalyst," +:+ nl.

(** A world in which every directory call succeeds. *)
Definition calm : world := mk 0 (inl hospital_groups) [] [] [] [].

(** A world in which the first group binding is refused. *)
Definition binding_down : world :=
  mk 0 (inl hospital_groups) []
     [inr (ServiceFault "group is locked" "{'status': 409, 'message': 'group is locked'}")]
     [] [].

Definition start (w : world) : State.t world :=
  State.mk w [] [] {[ "users.csv" := users_csv ]}.

(** The calls expected for the record of alice when the binding is refused. *)
Definition alice_details : CreateUserDetails.t :=
  CreateUserDetails.mk "ocid1.tenancy.oc1..hospital" "alice"
    "Healthcare ClinicalAdmin - Cardiology" "a@h.org"
    [ ("Role", "ClinicalAdmin"); ("Department", "Cardiology");
      ("CreatedBy", "Automated-Provisioning"); ("CreatedDate", "2024-03-01") ].

Definition alice_created : Event := EvCreateUser alice_details (inl "ocid1.user.oc1..alice").

Definition alice_binding : AddUserToGroupDetails.t :=
  AddUserToGroupDetails.mk "ocid1.user.oc1..alice" "ocid1.group.oc1..clinical".

Definition locked : fault :=
  ServiceFault "group is locked" "{'status': 409, 'message': 'group is locked'}".

Definition alice_not_bound : Event := EvAddUserToGroup alice_binding (inr locked).

(** The same record with a description of its own. *)
Definition chief_details : CreateUserDetails.t :=
  CreateUserDetails.mk "ocid1.tenancy.oc1..hospital" "alice"
    "Chief of Cardiology - Cardiology" "a@h.org"
    [ ("Role", "ClinicalAdmin"); ("Department", "Cardiology");
      ("CreatedBy", "Automated-Provisioning"); ("CreatedDate", "2024-03-01") ].
End Sim.

(** ** Vocabulary of the specification *)

(** The fault carried by a recorded call, if the call failed. *)
Definition event_fault (ev : Event) : option fault :=
  match ev with
  | EvListGroups _ (inr f) | EvCreateUser _ (inr f)
  | EvAddUserToGroup _ (inr f) | EvUpdateUserCapabilities _ _ (inr f) => Some f
  | _ => None
  end.

(** The text an outcome records for a fault: the two-way classification. *)
Definition fault_message (f : fault) : string :=
  match f with
  | ServiceFault m _ => "OCI Service Error: " +:+ m
  | OtherFault s => "Unexpected error: " +:+ s
  end.

Section Paths.
Variables (self : Manager) (username email role description department : string).
Variables (now today : datetime.t).

(** The outcome of a record that fails with [msg] after the group name and
    the account identifier have taken the given values. *)
Definition failure (group : option string) (ocid : option string) (msg : string) : Result.t :=
  Result.mk username email role department false ocid group (Some msg)
            (datetime.isoformat now).

(** The display description in the specification's words. *)
Definition display_description : string :=
  (if decide (description = "") then "Healthcare " +:+ role else description)
  +:+ (if decide (department = "") then "" else " - " +:+ department).

(** The account specification handed to the creation call. *)
Definition account_spec : CreateUserDetails.t :=
  CreateUserDetails.mk (tenancy_id self) username display_description email
    [ ("Role", role);
      ("Department", if decide (department = "") then "Unspecified" else department);
      ("CreatedBy", "Automated-Provisioning");
      ("CreatedDate", datetime.strftime_Ymd today) ].

Definition console_only : UpdateUserCapabilitiesDetails.t :=
  UpdateUserCapabilitiesDetails.mk true false.

(** The six ways one record can go: the directory calls made, in order,
    and the outcome returned. *)
Inductive provision_path : list Event -> Result.t -> Prop :=
| path_invalid_role :
    dict_get ROLE_MAPPINGS role = None ->
    provision_path []
      (failure None None
         ("Invalid role: " +:+ role +:+ ". Valid roles: "
          +:+ str_join ", " (dict_keys ROLE_MAPPINGS)))
| path_group_not_found g :
    dict_get ROLE_MAPPINGS role = Some g ->
    dict_get (group_cache self) g = None ->
    provision_path [] (failure None None ("Group not found in OCI: " +:+ g))
| path_creation_failed g gid f :
    dict_get ROLE_MAPPINGS role = Some g ->
    dict_get (group_cache self) g = Some gid ->
    provision_path [EvCreateUser account_spec (inr f)]
      (failure (Some g) None (fault_message f))
| path_binding_failed g gid ocid f :
    dict_get ROLE_MAPPINGS role = Some g ->
    dict_get (group_cache self) g = Some gid ->
    provision_path
      [ EvCreateUser account_spec (inl ocid);
        EvAddUserToGroup (AddUserToGroupDetails.mk ocid gid) (inr f) ]
      (failure (Some g) (Some ocid) (fault_message f))
| path_capabilities_failed g gid ocid f :
    dict_get ROLE_MAPPINGS role = Some g ->
    dict_get (group_cache self) g = Some gid ->
    provision_path
      [ EvCreateUser account_spec (inl ocid);
        EvAddUserToGroup (AddUserToGroupDetails.mk ocid gid) (inl tt);
        EvUpdateUserCapabilities ocid console_only (inr f) ]
      (failure (Some g) (Some ocid) (fault_message f))
| path_success g gid ocid :
    dict_get ROLE_MAPPINGS role = Some g ->
    dict_get (group_cache self) g = Some gid ->
    provision_path
      [ EvCreateUser account_spec (inl ocid);
        EvAddUserToGroup (AddUserToGroupDetails.mk ocid gid) (inl tt);
        EvUpdateUserCapabilities ocid console_only (inl tt) ]
      (Result.mk username email role department true (Some ocid) (Some g) None
                 (datetime.isoformat now)).
End Paths.

Section Readings.
Context {W : Type} {platform : Platform W}.

(** The two clock readings of a call of [create_user] started in world [w]:
    the outcome's timestamp, then the creation date. *)
Definition first_reading (w : W) : datetime.t := (clock_utcnow w).1.

Definition second_reading (w : W) : datetime.t := (clock_utcnow (clock_utcnow w).2).1.

(** The state after [lines] have been printed. *)
Definition put_lines (lines : list string) (s : State.t W) : State.t W :=
  State.mk (State.world s) (State.calls s) (State.stdout s ++ lines) (State.files s).
End Readings.

(** An input record: the fields of a row as they are passed to
    [create_user], stripped, the optional ones empty when their column is
    missing. *)
Module InputRecord.
Record t := mk {
  username : string;
  email : string;
  role : string;
  department : string;
  description : string }.
End InputRecord.

Definition stripped_field (row : Row) (key : string) : string :=
  strip (default "" (default None (row !! key))).

Definition record_of_row (row : Row) : InputRecord.t :=
  InputRecord.mk (stripped_field row "username") (stripped_field row "email")
    (stripped_field row "role") (stripped_field row "department")
    (stripped_field row "description").

(** A row the reader produced from a complete line: the required fields
    have a value, and so have the optional ones when the header has them. *)
Definition row_ok (row : Row) : Prop :=
  (forall key, key ∈ required_headers -> exists v, row !! key = Some (Some v))
  /\ row !! "department" <> Some None
  /\ row !! "description" <> Some None.

(** An outcome echoes the record it was made from. *)
Definition echoes (rec : InputRecord.t) (r : Result.t) : Prop :=
  Result.username r = InputRecord.username rec
  /\ Result.email r = InputRecord.email rec
  /\ Result.role r = InputRecord.role rec
  /\ Result.department r = InputRecord.department rec.

(** The failed outcomes, in processing order. *)
Definition failures (results : list Result.t) : list Result.t :=
  filter (fun r => Result.success r = false) results.



(** [sub] occurs in [s]. *)
Definition occurs (sub s : string) : Prop := exists a b, s = a +:+ sub +:+ b.


(** The lines of the role breakdown and of the failure listing, as the
    report shows them. *)
Definition breakdown_lines (results : list Result.t) : list string :=
  if decide (0 < successful results)
  then (nl +:+ "📋 Users by Role:")
       :: (role_line <$> sorted (dict_items (count_roles results)))
  else [].

Definition failure_lines (results : list Result.t) : list string :=
  if decide (0 < failed results)
  then (nl +:+ "❌ Failed Users:") :: (failure_line <$> failures results)
  else [].

(** The document of the audit log written at time [now]. *)
Definition audit_doc (results : list Result.t) (now : datetime.t) : Audit.t :=
  Audit.mk "bulk_user_onboarding" (datetime.isoformat now)
           (total results) (successful results) (failed results) results.

Section Attempts.
Context {W : Type} {platform : Platform W}.

(** [result] is the outcome of an attempt on the record [rec]: it echoes
    the record, and a call of [create_user] on the record returned it. *)
Definition outcome_of (self : Manager) (rec : InputRecord.t) (result : Result.t) : Prop :=
  echoes rec result
  /\ exists si si' : State.t W,
       create_user self (InputRecord.username rec) (InputRecord.email rec)
         (InputRecord.role rec) (InputRecord.description rec)
         (InputRecord.department rec) si = (Ok result, si').
End Attempts.

(** ** Start-up and the command

    What the constructor calls before the groups are loaded: the reader of
    the OCI configuration file and the constructor of the identity client.
    Neither is a directory call; a failure of either is an exception that
    nothing catches. *)
Class Startup (W : Type) := {
  (** [oci.config.from_file(config_file, profile)] *)
  config_from_file : string -> string -> W -> (dict string + fault) * W;
  (** [oci.identity.IdentityClient(config)] *)
  identity_client_new : dict string -> W -> (unit + fault) * W
}.

(** The arguments as [argparse] hands them over: [--csv] is required,
    [--report] and [--profile] have defaults. *)
Module Args.
Record t := mk { csv : string; report : string; profile : string }.

Definition default_report : string := "onboarding_report.csv".

Definition default_profile : string := "DEFAULT".

(** The namespace for a command line that gives [--csv] and maybe the two
    options. *)
Definition parsed (csv : string) (report profile : option string) : t :=
  mk csv (default default_report report) (default default_profile profile).
End Args.

Section Command.
Context {W : Type} {platform : Platform W} {startup : Startup W}.

Local Abbreviation St := (State.t W).

(** A start-up call: the world moves on, a fault is raised as the
    exception it stands for; the call is not a directory call. *)
Definition startup_call {A} (op : W -> (A + fault) * W) : M St A :=
  fun s =>
    let '(r, w) := op (State.world s) in
    let s' := State.mk w (State.calls s) (State.stdout s) (State.files s) in
    match r with
    | inl a => (Ok a, s')
    | inr f => (Raise (exn_of_fault f), s')
    end.

(** [config[key]]: a missing key is a [KeyError]. *)
Definition config_item (config : dict string) (key : string) : M St string :=
  match dict_get config key with
  | Some v => ret v
  | None => raise (Exception ("'" +:+ key +:+ "'"))
  end.

(** [HealthcareUserManager.__init__]: initialize the OCI clients and cache
    the groups. *)
Definition __init__ (config_file profile : string) : M St Manager :=
  print "🏥 Healthcare IAM User Manager" ;;
  print (str_mul "=" 60) ;;
  config <- startup_call (config_from_file config_file profile) ;;
  startup_call (identity_client_new config) ;;
  tenancy <- config_item config "tenancy" ;;
  (* Cache groups *)
  cache <- _load_groups tenancy ;;
  ret {| tenancy_id := tenancy; group_cache := cache |}.

(** [main], from the parsed arguments on. *)
Definition main (args : Args.t) : M St unit :=
  (* Create manager and process users *)
  manager <- __init__ "./config" (Args.profile args) ;;
  results <- bulk_create_from_csv manager (Args.csv args) ;;
  generate_report results (Some (Args.report args)) ;;
  print (nl +:+ "✅ Bulk onboarding complete!") ;;
  print (nl +:+ "Next Steps:") ;;
  print "1. Users will receive password reset emails" ;;
  print "2. Users must configure MFA on first login" ;;
  print "3. Users can access via AWS IAM Identity Center SSO" ;;
  print "4. Review the audit log for compliance records".

End Command.

(** ** Vocabulary for the group cache and the batch *)

(** The identifier of the last group of the listing that has name [name]. *)
Definition last_id (name : string) (groups : list Group.t) : option string :=
  Group.id <$> last (filter (fun g => Group.name g = name) groups).

(** The names of the listing that show as healthcare groups. *)
Definition healthcare_names (names : list string) : list string :=
  filter (fun g => startswith "HC-" g = true) names.

(** The body of the loop of [_load_groups]. *)
Definition cache_step (c : dict string) (g : Group.t) : dict string :=
  dict_set c (Group.name g) (Group.id g).

(** A string made of characters that satisfy [P], one after the other. *)
Inductive run_of (P : string -> Prop) : string -> Prop :=
| run_of_empty : run_of P ""
| run_of_more ch s : P ch -> run_of P s -> run_of P (ch +:+ s).

(** A string of whitespace characters. *)
Definition blank : string -> Prop := run_of (fun ch => ch ∈ whitespace).

(** [field] neither starts nor ends with a whitespace character. *)
Definition trimmed (field : string) : Prop :=
  forall ch rest, ch ∈ whitespace -> field <> ch +:+ rest /\ field <> rest +:+ ch.

(** [field] is [cell] without its surrounding whitespace. *)
Definition trimmed_of (cell field : string) : Prop :=
  (exists before after,
     cell = before +:+ field +:+ after /\ blank before /\ blank after)
  /\ trimmed field.

(** ** More simulated worlds *)

Module Desk.
(** The configuration file has the profile [DEFAULT] only. *)
Definition read_config (config_file profile : string) (w : Sim.world)
    : (dict string + fault) * Sim.world :=
  if decide (profile = "DEFAULT")
  then (inl [ ("user", "ocid1.user.oc1..operator");
              ("tenancy", "ocid1.tenancy.oc1..hospital");
              ("region", "us-ashburn-1") ], w)
  else (inr (OtherFault ("Profile '" +:+ profile +:+ "' not found in config file")), w).

#[global] Instance startup : Startup Sim.world := {|
  config_from_file := read_config;
  identity_client_new _ w := (inl tt, w)
|}.

Definition refused : fault :=
  ServiceFault "not authorized" "{'status': 401, 'message': 'not authorized'}".

(** Worlds in which one kind of directory call fails. *)
Definition listing_down : Sim.world := Sim.mk 0 (inr refused) [] [] [] [].

Definition creation_down : Sim.world :=
  Sim.mk 0 (inl Sim.hospital_groups) [inr (OtherFault "connection reset")] [] [] [].

Definition capabilities_down : Sim.world :=
  Sim.mk 0 (inl Sim.hospital_groups) [] [] [inr Sim.locked] [].

(** A world in which the report cannot be written. *)
Definition report_locked : Sim.world :=
  Sim.mk 0 (inl Sim.hospital_groups) [] [] [] ["report.csv"].

Definition alice_bound : Event := EvAddUserToGroup Sim.alice_binding (inl tt).

Definition alice_capabilities (r : unit + fault) : Event :=
  EvUpdateUserCapabilities "ocid1.user.oc1..alice" console_only r.

(** A listing with a name that comes twice. *)
Definition listing_twice : list Group.t :=
  [ Group.mk "HC-Data-Analysts" "ocid1.group.oc1..old";
    Group.mk "Administrators" "ocid1.group.oc1..admin";
    Group.mk "HC-Data-Analysts" "ocid1.group.oc1..new" ].

Definition twice : Sim.world := Sim.mk 0 (inl listing_twice) [] [] [] [].

(** A file whose second line is shorter than the header. *)
Definition short_csv : string :=
  "username,email,role,department" +:+ nl
  +:+ "alice,a@h.org,ClinicalAdmin,Cardiology" +:+ nl
  +:+ "bob,b@h.org,DataAnalyst" +:+ nl
  +:+ "carol,c@h.org,DataAnalyst," +:+ nl.

(** The records of [short_csv] in a file without the department column. *)
Definition columns_csv : string :=
  "username,email,role" +:+ nl
  +:+ "alice,a@h.org,ClinicalAdmin" +:+ nl
  +:+ "bob,b@h.org,DataAnalyst" +:+ nl
  +:+ "carol,c@h.org,DataAnalyst" +:+ nl.

Definition headless_csv : string :=
  "username,role" +:+ nl +:+ "alice,ClinicalAdmin" +:+ nl.

Definition desk (w : Sim.world) : State.t Sim.world :=
  State.mk w [] []
    {[ "users.csv" := Sim.users_csv; "short.csv" := short_csv;
       "columns.csv" := columns_csv; "headless.csv" := headless_csv ]}.
End Desk.

(** ** Vocabulary for the console *)

(** The line [create_user] prints after a directory call, when the call
    was answered without fault. *)
Definition confirmation (username group_name : string) (ev : Event) : list string :=
  match ev with
  | EvCreateUser _ (inl _) => ["  ✓ User created: " +:+ username]
  | EvAddUserToGroup _ (inl _) => ["  ✓ Added to group: " +:+ group_name]
  | EvUpdateUserCapabilities _ _ (inl _) =>
    ["  ✓ Configured capabilities (Console: Yes, API Keys: No)"]
  | _ => []
  end.

Definition confirmations (username group_name : string) (new : list Event) : list string :=
  concat (confirmation username group_name <$> new).

(** The line that announces record number [idx]. *)
Definition progress_line (idx : Z) (username role : string) : string :=
  nl +:+ "[" +:+ str_of_int idx +:+ "] Processing: " +:+ username
  +:+ " (" +:+ role +:+ ")".

(** The line that closes a record. *)
Definition verdict_line (result : Result.t) : string :=
  if Result.success result
  then "  ✓ SUCCESS - OCID: " +:+ str_of_opt (Result.user_ocid result)
  else "  ✗ FAILED - " +:+ str_of_opt (Result.error result).

(** The lines of one attempt: its outcome and the calls it made. *)
Definition attempt_lines (idx : Z) (run : Result.t * list Event) : list string :=
  progress_line idx (Result.username run.1) (Result.role run.1)
  :: confirmations (Result.username run.1) (default "" (Result.group_name run.1)) run.2
  ++ [verdict_line run.1].

(** The lines of a batch whose first record has number [idx]. *)
Fixpoint batch_lines (idx : Z) (runs : list (Result.t * list Event)) : list string :=
  match runs with
  | [] => []
  | run :: runs' => attempt_lines idx run ++ batch_lines (idx + 1) runs'
  end.

(** ** Vocabulary for the attempts of a batch *)

Section Turns.
Context {W : Type} {platform : Platform W}.

(** The attempts of a batch, in turn, from the record with number [idx]
    on: a record is announced and handed to [create_user] in the state the
    attempt before it left, whatever the outcome of that attempt was; its
    verdict is printed, and the next record follows from there. *)
Inductive attempted (self : Manager)
    : Z -> State.t W -> list InputRecord.t -> list Result.t -> State.t W -> Prop :=
| attempted_none idx s : attempted self idx s [] [] s
| attempted_next idx s rec recs result results s1 s2 :
    create_user self (InputRecord.username rec) (InputRecord.email rec)
      (InputRecord.role rec) (InputRecord.description rec) (InputRecord.department rec)
      (put_lines [progress_line idx (InputRecord.username rec) (InputRecord.role rec)] s)
    = (Ok result, s1) ->
    attempted self (idx + 1) (put_lines [verdict_line result] s1) recs results s2 ->
    attempted self idx s (rec :: recs) (result :: results) s2.
End Turns.

(** * Properties *)

(** ** Strings and dictionaries *)

Lemma append_empty_r s : s +:+ "" = s.
Proof.
  induction s as [|a s IH]; [done|].
  change (String a (s +:+ "") = String a s). by rewrite IH.
Qed.

Lemma str_bool_true s : str_bool s = true <-> s <> "".
Proof. destruct s; simpl; split; intros; done. Qed.

Lemma dict_get_None {V} (d : dict V) k : dict_get d k = None <-> k ∉ dict_keys d.
Proof.
  unfold dict_keys. induction d as [|[k' v] d IH]; simpl.
  - split; [intros _; apply not_elem_of_nil | done].
  - rewrite not_elem_of_cons. case_decide; subst.
    + split; [done | intros [? _]; done].
    + rewrite IH. split; [intros ?; split; [congruence|done] | intros [_ ?]; done].
Qed.

Lemma dict_in_false {V} (d : dict V) k : dict_in k d = false <-> dict_get d k = None.
Proof. unfold dict_in. by rewrite bool_decide_eq_false, <- eq_None_not_Some. Qed.

(** Every group name of the registry is a non-empty string, so the test
    [not group_name] fails exactly for the roles outside the registry. *)
Lemma ROLE_MAPPINGS_truthy role g : dict_get ROLE_MAPPINGS role = Some g -> g <> "".
Proof.
  unfold ROLE_MAPPINGS. simpl. repeat case_decide; intros; simplify_eq; discriminate.
Qed.

Lemma display_description_eq role description department :
  (if str_bool department
   then str_or description ("Healthcare " +:+ role) +:+ " - " +:+ department
   else str_or description ("Healthcare " +:+ role))
  = display_description role description department.
Proof.
  unfold display_description, str_or.
  destruct description, department; cbn; rewrite ?append_empty_r; reflexivity.
Qed.

Lemma department_tag_eq department :
  str_or department "Unspecified"
  = if decide (department = "") then "Unspecified" else department.
Proof. by destruct department. Qed.

(** The creation date does not depend on the time of day. *)
Lemma strftime_Ymd_date_only d h m sec us :
  datetime.strftime_Ymd
    (datetime.mk (datetime.year d) (datetime.month d) (datetime.day d) h m sec us)
  = datetime.strftime_Ymd d.
Proof. reflexivity. Qed.

(** ** String replacement *)

Lemma app_cons c s t : String c s +:+ t = String c (s +:+ t).
Proof. reflexivity. Qed.

Lemma app_empty_l t : "" +:+ t = t.
Proof. reflexivity. Qed.

Lemma app_assoc_str s t u : (s +:+ t) +:+ u = s +:+ t +:+ u.
Proof. induction s as [|c s IH]; [done|]. by rewrite !app_cons, IH. Qed.

Lemma startswith_spec p s : startswith p s = true <-> exists b, s = p +:+ b.
Proof.
  revert s. induction p as [|a p IH]; intros s; cbn [startswith].
  - split; [by exists s | done].
  - destruct s as [|c s].
    + split; [done | by intros [b ?]].
    + case_decide as Hac.
      * subst c. rewrite IH. split; intros [b Hb]; exists b.
        -- by rewrite app_cons, <- Hb.
        -- rewrite app_cons in Hb. by simplify_eq.
      * split; [done|]. intros [b Hb]. rewrite app_cons in Hb. by simplify_eq.
Qed.

Lemma occurs_cons sub c s :
  occurs sub (String c s) <-> startswith sub (String c s) = true \/ occurs sub s.
Proof.
  rewrite startswith_spec. unfold occurs. split.
  - intros ([|c' a] & b & Hs).
    + left. by exists b.
    + right. rewrite app_cons in Hs. simplify_eq. by exists a, b.
  - intros [[b Hb]|(a & b & Hs)].
    + by exists "", b.
    + exists (String c a), b. by rewrite app_cons, Hs.
Qed.

Lemma occurs_empty sub : occurs sub "" <-> sub = "".
Proof.
  unfold occurs. split.
  - intros ([|c a] & b & Hs); [by destruct sub | done].
  - intros ->. by exists "", "".
Qed.

(** [str_contains] decides [occurs]. *)
Lemma str_contains_spec sub s : str_contains sub s = true <-> occurs sub s.
Proof.
  induction s as [|c s IH]; cbn [str_contains].
  - rewrite orb_false_r, occurs_empty. by destruct sub.
  - by rewrite orb_true_iff, IH, occurs_cons.
Qed.


Lemma replace_from_absent old new s :
  old <> "" -> ~ occurs old s -> replace_from old new O s = s.
Proof.
  intros Hold. induction s as [|c s IH]; intros Hno; [done|].
  rewrite occurs_cons in Hno. cbn [replace_from].
  destruct (startswith old (String c s)); [by destruct Hno; left|].
  rewrite IH; [done|]. intros ?. apply Hno. by right.
Qed.

Lemma startswith_csv_app a b :
  startswith ".csv" (a +:+ ".csv" +:+ b) = true -> a = "" \/ startswith ".csv" a = true.
Proof.
  destruct a as [|c1 [|c2 [|c3 [|c4 a]]]]; [by left|..]; intros H; right;
    rewrite ?app_cons, ?app_empty_l in H; cbn in H |- *;
    repeat case_decide; simplify_eq; done.
Qed.

Lemma replace_csv_first new a b :
  ~ occurs ".csv" a ->
  replace ".csv" new (a +:+ ".csv" +:+ b) = a +:+ new +:+ replace ".csv" new b.
Proof.
  change (replace ".csv" new) with (replace_from ".csv" new O).
  induction a as [|c a IH]; intros Hno.
  - rewrite !app_empty_l. reflexivity.
  - rewrite occurs_cons in Hno. rewrite !(app_cons c). cbn [replace_from].
    destruct (startswith ".csv" (String c (a +:+ ".csv" +:+ b))) eqn:Hs.
    + rewrite <- app_cons in Hs. apply startswith_csv_app in Hs as [?|Hs]; [done|].
      destruct Hno. by left.
    + rewrite IH; [done|]. intros ?. apply Hno. by right.
Qed.

Lemma replace_csv_absent new s :
  ~ occurs ".csv" s -> replace ".csv" new s = s.
Proof. intros. by apply replace_from_absent. Qed.

Example replace_every_occurrence :
  replace ".csv" "_audit.json" "out.csv/run.csv" = "out_audit.json/run_audit.json".
Proof. reflexivity. Qed.

(** ** Counting *)

Lemma successful_from acc results :
  foldl (fun acc r => if Result.success r then acc + 1 else acc) acc results
  = acc + Z.of_nat (length (filter (fun r => Result.success r = true) results)).
Proof.
  revert acc. induction results as [|r results IH]; intros acc; simpl; [lia|].
  rewrite IH, filter_cons. destruct (Result.success r); simpl; lia.
Qed.

Lemma successful_length results :
  successful results = Z.of_nat (length (filter (fun r => Result.success r = true) results)).
Proof. unfold successful. rewrite successful_from. lia. Qed.

Lemma failures_length results :
  Z.of_nat (length (failures results)) = total results - successful results.
Proof.
  rewrite successful_length. unfold total, failures.
  induction results as [|r results IH]; simpl; [done|].
  rewrite !filter_cons. destruct (Result.success r); simpl; lia.
Qed.

Lemma successful_bounds results : 0 <= successful results <= total results.
Proof. pose proof (failures_length results). rewrite successful_length in *. lia. Qed.

Lemma dict_get_set {V} (d : dict V) k v k' :
  dict_get (dict_set d k v) k' = if decide (k = k') then Some v else dict_get d k'.
Proof.
  induction d as [|[k0 v0] d IH]; simpl.
  - done.
  - destruct (decide (k0 = k)) as [->|Hne]; simpl.
    + destruct (decide (k = k')); done.
    + rewrite IH. destruct (decide (k0 = k')) as [->|]; [|done].
      by rewrite decide_False.
Qed.

Lemma dict_keys_set {V} (d : dict V) k v :
  dict_keys (dict_set d k v) = if decide (k ∈ dict_keys d) then dict_keys d else dict_keys d ++ [k].
Proof.
  unfold dict_keys. induction d as [|[k0 v0] d IH].
  - by rewrite decide_False by apply not_elem_of_nil.
  - cbn [dict_set]. destruct (decide (k0 = k)) as [->|Hne].
    + rewrite decide_True; [done | rewrite fmap_cons; left].
    + rewrite !fmap_cons, IH. destruct (decide (k ∈ d.*1)).
      * rewrite decide_True; [done | by right].
      * rewrite decide_False; [done|]. rewrite elem_of_cons. cbn. intros [?|?]; [congruence|done].
Qed.

Lemma dict_set_NoDup {V} (d : dict V) k v :
  NoDup (dict_keys d) -> NoDup (dict_keys (dict_set d k v)).
Proof.
  intros Hd. rewrite dict_keys_set. case_decide; [done|].
  apply NoDup_app. split; [done|]. split; [|apply NoDup_singleton].
  intros x Hx ->%list_elem_of_singleton. done.
Qed.







(** ** The order of [sorted] *)
Lemma compare_refl s : String.compare s s = Eq.
Proof.
  induction s as [|a s IH]; simpl; [done|].
  unfold Ascii.compare. by rewrite N.compare_refl.
Qed.

Lemma ltb_le a b : String.ltb a b = true <-> String.le a b /\ a <> b.
Proof.
  unfold String.ltb, String.le, String.leb.
  destruct (String.compare a b) eqn:Hc; simpl.
  - apply String.compare_eq_iff in Hc as ->. split; [done | by intros [_ ?]].
  - split; [|done]. intros _. split; [done|]. intros ->. by rewrite compare_refl in Hc.
  - split; [done | by intros [? _]].
Qed.

Lemma ltb_trans a b c : String.ltb a b = true -> String.ltb b c = true -> String.ltb a c = true.
Proof.
  rewrite !ltb_le. intros [Hab Hne] [Hbc Hne']. split; [by etrans|].
  intros ->. apply Hne. by apply (anti_symm String.le).
Qed.

Lemma ltb_total a b : String.ltb a b = true \/ a = b \/ String.ltb b a = true.
Proof.
  rewrite !ltb_le. destruct (decide (a = b)) as [|Hne]; [by auto|].
  destruct (String.le_total a b); [left | right; right]; split; congruence.
Qed.

Lemma ltb_irrefl a : String.ltb a a = false.
Proof. unfold String.ltb. by rewrite compare_refl. Qed.

Lemma tuple_le_spec a b :
  tuple_le a b <-> String.ltb a.1 b.1 = true \/ (a.1 = b.1 /\ a.2 <= b.2).
Proof.
  unfold tuple_le, tuple_leb.
  rewrite orb_true_iff, andb_true_iff, bool_decide_eq_true, Z.leb_le. done.
Qed.

#[local] Instance tuple_le_total : Total tuple_le.
Proof.
  intros a b. rewrite !tuple_le_spec.
  destruct (ltb_total a.1 b.1) as [?|[?|?]]; [by auto| |by auto].
  destruct (Z.le_ge_cases a.2 b.2); [left | right]; right; split; (congruence || lia).
Qed.

#[local] Instance tuple_le_trans : Transitive tuple_le.
Proof.
  intros a b c. rewrite !tuple_le_spec.
  intros [Hab|[Hab ?]] [Hbc|[Hbc ?]].
  - left. by eapply ltb_trans.
  - left. by rewrite <- Hbc.
  - left. by rewrite Hab.
  - right. split; [congruence | lia].
Qed.




(** ** The provisioning engine *)

Section Provisioning.
Context {W : Type} {platform : Platform W}.
Local Abbreviation St := (State.t W).

Ltac platform_step :=
  cbn [fst snd State.world State.calls State.stdout State.files negb];
  match goal with
  | |- context [clock_utcnow ?w] => destruct (clock_utcnow w) as [? ?] eqn:?
  | |- context [client_create_user ?d ?w] =>
      destruct (client_create_user d w) as [[?|?] ?] eqn:?
  | |- context [client_add_user_to_group ?d ?w] =>
      destruct (client_add_user_to_group d w) as [[[]|?] ?] eqn:?
  | |- context [client_update_user_capabilities ?u ?d ?w] =>
      destruct (client_update_user_capabilities u d w) as [[[]|?] ?] eqn:?
  end.

(** [create_user] always returns an outcome, and goes one of the six ways
    of [provision_path]; it writes no file. *)
Lemma create_user_path self username email role description department (s : St) :
  exists result s' new,
    create_user self username email role description department s = (Ok result, s')
    /\ State.calls s' = State.calls s ++ new
    /\ State.files s' = State.files s
    /\ provision_path self username email role description department
         (first_reading (State.world s)) (second_reading (State.world s)) new result.
Proof.
  unfold first_reading, second_reading, create_user, bind, utcnow.
  destruct (clock_utcnow (State.world s)) as [now w1] eqn:Hnow.
  destruct (dict_get ROLE_MAPPINGS role) as [g|] eqn:Hrole.
  2:{ eexists _, _, []. cbn. rewrite app_nil_r. repeat split. by constructor. }
  pose proof (ROLE_MAPPINGS_truthy _ _ Hrole) as Hg.
  destruct g as [|c g]; [done|].
  destruct (dict_in (String c g) (group_cache self)) eqn:Hin; cbn [negb].
  2:{ apply dict_in_false in Hin. eexists _, _, []. cbn. rewrite app_nil_r.
      repeat split. by econstructor. }
  unfold dict_in in Hin. apply bool_decide_eq_true in Hin as [gid Hgid].
  unfold with_local, try_except, create_user_try, bind, lift, utcnow, modify_local,
    get_local, identity_create_user, identity_add_user_to_group,
    identity_update_user_capabilities, client_call, print.
  rewrite Hgid, display_description_eq, department_tag_eq.
  cbn [fst snd State.world State.calls State.stdout State.files].
  destruct (clock_utcnow w1) as [today w2] eqn:Htoday.
  repeat platform_step;
    try match goal with f : fault |- _ => destruct f end; cbn.
  all: eexists _, _, _; rewrite <- ?app_assoc;
    (split; [reflexivity|]); (split; [reflexivity|]); (split; [reflexivity|]).
  all: by econstructor.
Qed.

(** The same, read off a run: the calls recorded by a run determine its
    path. *)
Lemma create_user_run_path self username email role description department (s : St) new :
  State.calls (create_user self username email role description department s).2
    = State.calls s ++ new ->
  exists result,
    (create_user self username email role description department s).1 = Ok result
    /\ provision_path self username email role description department
         (first_reading (State.world s)) (second_reading (State.world s)) new result.
Proof.
  destruct (create_user_path self username email role description department s)
    as (result & s' & new' & -> & Hcalls & _ & Hpath).
  cbn. rewrite Hcalls. intros ->%app_inv_head. eauto.
Qed.

Ltac path_cases H :=
  inversion H; subst; clear H; cbn in *.

Ltac list_cases :=
  repeat match goal with
  | H : _ ∈ [] |- _ => by apply elem_of_nil in H
  | H : _ ∈ _ :: _ |- _ => apply elem_of_cons in H as [H|H]; simplify_eq
  | H : [] = _ ++ _ :: _ |- _ => by destruct (app_cons_not_nil _ _ _ H)
  | H : _ :: _ = ?pre ++ _ :: _ |- _ => destruct pre; simplify_eq/=
  end.

(** C1. For every input record and group index, [create_user] returns an
    outcome in which success implies no error and an account identifier;
    the outcome is a success exactly when it carries no error (never
    both); a failed directory call is the last call made, and its fault is
    the error the outcome records. *)
Theorem create_user_success_xor_failure self username email role description department
    (s : St) :
  exists result s' new,
    create_user self username email role description department s = (Ok result, s')
    /\ State.calls s' = State.calls s ++ new
    /\ (Result.success result = true ->
        Result.error result = None /\ Result.user_ocid result <> None)
    /\ (Result.success result = true <-> Result.error result = None)
    /\ (forall pre ev post f,
          new = pre ++ ev :: post -> event_fault ev = Some f ->
          post = [] /\ Result.success result = false
          /\ Result.error result = Some (fault_message f))
    /\ (Result.success result = true -> forall ev, ev ∈ new -> event_fault ev = None).
Proof.
  destruct (create_user_path self username email role description department s)
    as (result & s' & new & Hrun & Hcalls & _ & Hpath).
  exists result, s', new. do 2 (split; [done|]).
  path_cases Hpath; (split; [done|]); (split; [done|]); split.
  all: try (intros pre ev post f' Hnew Hf; list_cases; by simplify_eq/=).
  all: try done.
  intros _ ev Hev. list_cases; done.
Qed.

(** C2. When the creation call succeeds and the group-binding call fails,
    [create_user] returns a failed outcome that carries the identifier the
    creation call assigned, the attempted group and the binding fault; the
    two calls are all the calls made: nothing is rolled back. *)
Theorem create_user_binding_failure_keeps_account self username email role description
    department (s : St) new details ocid details' f :
  State.calls (create_user self username email role description department s).2
    = State.calls s ++ new ->
  EvCreateUser details (inl ocid) ∈ new ->
  EvAddUserToGroup details' (inr f) ∈ new ->
  exists result,
    (create_user self username email role description department s).1 = Ok result
    /\ Result.success result = false
    /\ Result.user_ocid result = Some ocid
    /\ Result.group_name result = dict_get ROLE_MAPPINGS role
    /\ Result.error result = Some (fault_message f)
    /\ new = [EvCreateUser details (inl ocid); EvAddUserToGroup details' (inr f)].
Proof.
  intros Hcalls Hcreate Hadd.
  destruct (create_user_run_path _ _ _ _ _ _ _ _ Hcalls) as (result & Hrun & Hpath).
  exists result. split; [done|].
  path_cases Hpath; list_cases. by rewrite H.
Qed.

(** C3. For a role that is not a key of the six-entry registry,
    [create_user] returns a failed outcome without account identifier whose
    error names the role and lists the six valid roles, and makes no
    directory call. *)
Theorem create_user_invalid_role self username email role description department (s : St) :
  role ∉ dict_keys ROLE_MAPPINGS ->
  exists result s',
    create_user self username email role description department s = (Ok result, s')
    /\ Result.success result = false
    /\ Result.user_ocid result = None
    /\ Result.error result =
       Some ("Invalid role: " +:+ role +:+ ". Valid roles: SecurityAdmin, "
             +:+ "CloudEngineer, ClinicalAdmin, ComplianceAuditor, Developer, DataAnalyst")
    /\ State.calls s' = State.calls s
    /\ length ROLE_MAPPINGS = 6%nat.
Proof.
  intros Hrole%dict_get_None.
  destruct (create_user_path self username email role description department s)
    as (result & s' & new & Hrun & Hcalls & _ & Hpath).
  exists result, s'. split; [done|].
  path_cases Hpath; try congruence.
  rewrite Hcalls, app_nil_r. done.
Qed.

(** C4. For a valid role whose group is absent from the group cache,
    [create_user] returns a failed outcome whose error reports the group as
    not found, and makes no directory call: no account is created. *)
Theorem create_user_group_not_found self username email role description department
    (s : St) g :
  dict_get ROLE_MAPPINGS role = Some g ->
  dict_get (group_cache self) g = None ->
  exists result s',
    create_user self username email role description department s = (Ok result, s')
    /\ Result.success result = false
    /\ Result.user_ocid result = None
    /\ Result.error result = Some ("Group not found in OCI: " +:+ g)
    /\ State.calls s' = State.calls s.
Proof.
  intros Hrole Hgroup.
  destruct (create_user_path self username email role description department s)
    as (result & s' & new & Hrun & Hcalls & _ & Hpath).
  exists result, s'. split; [done|].
  path_cases Hpath; try congruence.
  rewrite Hcalls, app_nil_r. simplify_eq. done.
Qed.

(** The creation step is reached exactly by the records with a valid role
    whose group is in the cache, and it is then the first call. *)
Lemma create_user_reaches_creation self username email role description department
    (s : St) new :
  State.calls (create_user self username email role description department s).2
    = State.calls s ++ new ->
  (exists g gid, dict_get ROLE_MAPPINGS role = Some g
                 /\ dict_get (group_cache self) g = Some gid)
  <-> (exists details r rest, new = EvCreateUser details r :: rest).
Proof.
  intros Hcalls.
  destruct (create_user_run_path _ _ _ _ _ _ _ _ Hcalls) as (result & _ & Hpath).
  path_cases Hpath;
    (split; [intros (g' & gid' & ? & ?); try congruence; eauto
            |intros (? & ? & ? & ?); try discriminate; eauto]).
Qed.

(** The account specification of a run is [account_spec]. *)
Lemma create_user_details self username email role description department (s : St)
    new details r :
  State.calls (create_user self username email role description department s).2
    = State.calls s ++ new ->
  EvCreateUser details r ∈ new ->
  details = account_spec self username email role description department
              (second_reading (State.world s)).
Proof.
  intros Hcalls Hin.
  destruct (create_user_run_path _ _ _ _ _ _ _ _ Hcalls) as (result & _ & Hpath).
  path_cases Hpath; list_cases; done.
Qed.

(** C8. For every record that reaches the creation step, the account
    specification has the display description ["Healthcare {role}"] by
    default, followed by [" - {department}"] when the department is not
    empty, and carries exactly the four tags [Role], [Department]
    (["Unspecified"] when empty), [CreatedBy] (["Automated-Provisioning"])
    and [CreatedDate], the date of creation without the time of day. *)
Theorem create_user_account_specification self username email role description department
    (s : St) new details r :
  State.calls (create_user self username email role description department s).2
    = State.calls s ++ new ->
  EvCreateUser details r ∈ new ->
  let today := second_reading (State.world s) in
  (description = "" ->
   CreateUserDetails.description details =
   "Healthcare " +:+ role +:+ (if decide (department = "") then "" else " - " +:+ department))
  /\ CreateUserDetails.freeform_tags details =
     [ ("Role", role);
       ("Department", if decide (department = "") then "Unspecified" else department);
       ("CreatedBy", "Automated-Provisioning");
       ("CreatedDate", datetime.strftime_Ymd today) ]
  /\ (forall h m sec us,
        datetime.strftime_Ymd
          (datetime.mk (datetime.year today) (datetime.month today) (datetime.day today)
                       h m sec us)
        = datetime.strftime_Ymd today)
  /\ CreateUserDetails.name details = username
  /\ CreateUserDetails.email details = email
  /\ CreateUserDetails.compartment_id details = tenancy_id self.
Proof.
  intros Hcalls Hin today.
  rewrite (create_user_details _ _ _ _ _ _ _ _ _ _ Hcalls Hin). cbn.
  split; [|done]. intros ->. unfold display_description. done.
Qed.

(** C9. For a record with a non-empty description, the account's display
    description is that description verbatim, still followed by
    [" - {department}"] when the department is not empty; the default is
    what an empty description gives. *)
Theorem create_user_description_verbatim self username email role description department
    (s : St) new details r :
  State.calls (create_user self username email role description department s).2
    = State.calls s ++ new ->
  EvCreateUser details r ∈ new ->
  (description <> "" ->
   CreateUserDetails.description details =
   description +:+ (if decide (department = "") then "" else " - " +:+ department))
  /\ (description <> "" -> department = "" ->
      CreateUserDetails.description details = description)
  /\ (description = "" ->
      CreateUserDetails.description details =
      "Healthcare " +:+ role +:+ (if decide (department = "") then "" else " - " +:+ department)).
Proof.
  intros Hcalls Hin.
  rewrite (create_user_details _ _ _ _ _ _ _ _ _ _ Hcalls Hin). cbn.
  unfold display_description. repeat split.
  - intros Hd. by rewrite decide_False.
  - intros Hd ->. rewrite decide_False by done. apply append_empty_r.
  - by intros ->.
Qed.

End Provisioning.

(** ** The report aggregator *)

Section Reporting.
Context {W : Type} {platform : Platform W}.
Local Abbreviation St := (State.t W).

Lemma bind_ok {S A B} (c : M S A) (k : A -> M S B) s a s' :
  c s = (Ok a, s') -> bind c k s = k a s'.
Proof. unfold bind. by intros ->. Qed.

Lemma put_lines_nil (s : St) : put_lines [] s = s.
Proof. destruct s. unfold put_lines. cbn. by rewrite app_nil_r. Qed.

Lemma put_lines_app l1 l2 (s : St) : put_lines l2 (put_lines l1 s) = put_lines (l1 ++ l2) s.
Proof. unfold put_lines. cbn. by rewrite app_assoc. Qed.

Lemma print_run line (s : St) : print line s = (Ok tt, put_lines [line] s).
Proof. reflexivity. Qed.

Lemma bind_print {A} line (k : M St A) (s : St) :
  bind (print line) (fun _ => k) s = k (put_lines [line] s).
Proof. reflexivity. Qed.

Lemma print_each_run {A} (line : A -> string) l (s : St) :
  print_each line l s = (Ok tt, put_lines (line <$> l) s).
Proof.
  revert s. induction l as [|x l IH]; intros s; cbn [print_each].
  - unfold ret. by rewrite put_lines_nil.
  - by rewrite bind_print, IH, put_lines_app.
Qed.

Lemma print_failures_run results (s : St) :
  print_failures results s = (Ok tt, put_lines (failure_line <$> failures results) s).
Proof.
  unfold failures. revert s.
  induction results as [|r results IH]; intros s; cbn [print_failures].
  - unfold ret. by rewrite put_lines_nil.
  - rewrite filter_cons. destruct (Result.success r); cbn [negb].
    + unfold bind, ret. rewrite IH. by rewrite decide_False.
    + rewrite bind_print, IH, put_lines_app. by rewrite decide_True.
Qed.

Lemma show_role_breakdown_run results (s : St) :
  show_role_breakdown results s = (Ok tt, put_lines (breakdown_lines results) s).
Proof.
  unfold show_role_breakdown, breakdown_lines. destruct (Z.ltb_spec 0 (successful results)).
  - rewrite decide_True by done. by rewrite bind_print, print_each_run, put_lines_app.
  - rewrite decide_False by lia. unfold ret. by rewrite put_lines_nil.
Qed.

Lemma show_failures_run results (s : St) :
  show_failures results s = (Ok tt, put_lines (failure_lines results) s).
Proof.
  unfold show_failures, failure_lines. destruct (Z.ltb_spec 0 (failed results)).
  - rewrite decide_True by done. by rewrite bind_print, print_failures_run, put_lines_app.
  - rewrite decide_False by lia. unfold ret. by rewrite put_lines_nil.
Qed.

(** The percentage lines: the division is evaluated only when [total > 0]. *)
Lemma successful_line_run results (s : St) :
  successful_line results s =
  (Ok (if decide (0 < total results)
       then "✓ Successful: " +:+ str_of_int (successful results) +:+ " ("
            +:+ format_percent (successful results) (total results) +:+ "%)"
       else "No users processed"), s).
Proof.
  unfold successful_line, percent, bind, ret, raise.
  destruct (decide (0 < total results)) as [Hpos|Hnpos].
  - rewrite (proj2 (Z.ltb_lt _ _) Hpos). by rewrite decide_False by lia.
  - by rewrite (proj2 (Z.ltb_ge _ _)) by lia.
Qed.

Lemma failed_line_run results (s : St) :
  failed_line results s =
  (Ok (if decide (0 < total results)
       then "✗ Failed: " +:+ str_of_int (failed results) +:+ " ("
            +:+ format_percent (failed results) (total results) +:+ "%)"
       else ""), s).
Proof.
  unfold failed_line, percent, bind, ret, raise.
  destruct (decide (0 < total results)) as [Hpos|Hnpos].
  - rewrite (proj2 (Z.ltb_lt _ _) Hpos). by rewrite decide_False by lia.
  - by rewrite (proj2 (Z.ltb_ge _ _)) by lia.
Qed.

Lemma show_summary_run results (s : St) :
  exists l1 l2,
    successful_line results s = (Ok l1, s) /\ failed_line results s = (Ok l2, s)
    /\ show_summary results s =
       (Ok tt, put_lines [ nl +:+ str_mul "=" 60; "📊 BULK ONBOARDING SUMMARY";
                           str_mul "=" 60;
                           "Total users processed: " +:+ str_of_int (total results);
                           l1; l2; str_mul "=" 60 ] s).
Proof.
  eexists _, _. split; [apply successful_line_run|]. split; [apply failed_line_run|].
  unfold show_summary. rewrite !bind_print.
  unfold bind at 1. rewrite successful_line_run. rewrite bind_print.
  unfold bind at 1. rewrite failed_line_run. rewrite bind_print, print_run.
  by rewrite !put_lines_app.
Qed.

Lemma write_detail_report_cases results output (s : St) :
  exists s1,
    write_detail_report results output s = (Ok tt, s1)
    /\ State.world s1 = State.world s
    /\ State.calls s1 = State.calls s
    /\ State.files s1 =
       match output with
       | Some path =>
         if decide (path = "") then State.files s
         else match open_w_error path (State.world s) with
              | None => <[path := csv_write report_fieldnames results]> (State.files s)
              | Some _ => State.files s
              end
       | None => State.files s
       end.
Proof.
  unfold write_detail_report. destruct output as [[|c path]|]; cbn [str_bool].
  1,3: by eexists.
  rewrite decide_False by done.
  unfold try_except, bind, open_w, file_write, print, except_print.
  destruct (open_w_error (String c path) (State.world s)); cbn.
  - by eexists.
  - eexists. by rewrite insert_insert_eq.
Qed.

Lemma write_audit_log_cases results output (s : St) :
  exists s2,
    write_audit_log results output s = (Ok tt, s2)
    /\ State.calls s2 = State.calls s
    /\ State.files s2 =
       match open_w_error (audit_file_of output) (State.world s) with
       | None =>
         <[audit_file_of output :=
             json_dump (audit_doc results (first_reading (State.world s)))]> (State.files s)
       | Some _ => State.files s
       end.
Proof.
  unfold write_audit_log, try_except, bind, open_w, file_write, print, except_print,
    utcnow, first_reading.
  destruct (open_w_error (audit_file_of output) (State.world s)); cbn.
  - by eexists.
  - destruct (clock_utcnow (State.world s)) as [now w]. cbn.
    eexists. by rewrite insert_insert_eq.
Qed.


Lemma write_audit_log_stdout results output (s s2 : St) :
  write_audit_log results output s = (Ok tt, s2) ->
  exists lines, State.stdout s2 = State.stdout s ++ lines.
Proof.
  unfold write_audit_log, try_except, bind, open_w, file_write, print, except_print,
    utcnow.
  destruct (open_w_error (audit_file_of output) (State.world s)); cbn.
  - intros [= <-]. by eexists.
  - destruct (clock_utcnow (State.world s)) as [now w]. cbn. intros [= <-]. by eexists.
Qed.

(** [generate_report] prints the summary, the breakdown and the failures,
    then runs the two writing blocks. *)
Lemma generate_report_prefix results output (s : St) :
  exists summary,
    generate_report results output s =
    bind (write_detail_report results output)
         (fun _ => write_audit_log results output)
         (put_lines (summary ++ breakdown_lines results ++ failure_lines results) s).
Proof.
  destruct (show_summary_run results s) as (l1 & l2 & _ & _ & Hsum).
  eexists. unfold generate_report.
  erewrite bind_ok by exact Hsum.
  erewrite bind_ok by apply show_role_breakdown_run.
  erewrite bind_ok by apply show_failures_run.
  by rewrite !put_lines_app.
Qed.

(** [generate_report] always returns. *)
Lemma generate_report_run results output (s : St) :
  exists lines s1 s2,
    write_detail_report results output (put_lines lines s) = (Ok tt, s1)
    /\ write_audit_log results output s1 = (Ok tt, s2)
    /\ generate_report results output s = (Ok tt, s2).
Proof.
  destruct (generate_report_prefix results output s) as [summary Hgen].
  destruct (write_detail_report_cases results output
              (put_lines (summary ++ breakdown_lines results ++ failure_lines results) s))
    as (s1 & Hd & _).
  destruct (write_audit_log_cases results output s1) as (s2 & Ha & _).
  eexists _, s1, s2. split; [exact Hd|]. split; [done|].
  rewrite Hgen. by erewrite bind_ok by exact Hd.
Qed.




(** C10. The audit path is ["audit.json"] when no report path is given
    ([None] or the empty string); otherwise it is the report path with every
    occurrence of [".csv"] replaced by ["_audit.json"], from left to right.
    A report path without [".csv"] is therefore its own audit path:
    [generate_report] writes the audit document to the report path, over
    the detail report it has just written there. *)
Theorem audit_file_derivation :
  audit_file_of None = "audit.json"
  /\ audit_file_of (Some "") = "audit.json"
  /\ (forall path, path <> "" ->
        audit_file_of (Some path) = replace ".csv" "_audit.json" path)
  /\ (forall a b, ~ occurs ".csv" a ->
        replace ".csv" "_audit.json" (a +:+ ".csv" +:+ b)
        = a +:+ "_audit.json" +:+ replace ".csv" "_audit.json" b)
  /\ (forall path, ~ occurs ".csv" path -> replace ".csv" "_audit.json" path = path)
  /\ (forall results path (s : St),
        path <> "" -> ~ occurs ".csv" path ->
        open_w_error path (State.world s) = None ->
        audit_file_of (Some path) = path
        /\ exists lines s1 s2,
             write_detail_report results (Some path) (put_lines lines s) = (Ok tt, s1)
             /\ State.files s1 !! path = Some (csv_write report_fieldnames results)
             /\ write_audit_log results (Some path) s1 = (Ok tt, s2)
             /\ generate_report results (Some path) s = (Ok tt, s2)
             /\ State.files s2 !! path
                = Some (json_dump (audit_doc results (first_reading (State.world s))))).
Proof.
  assert (forall path, path <> "" ->
            audit_file_of (Some path) = replace ".csv" "_audit.json" path) as Hderive.
  { intros [|c path] Hne; [done | reflexivity]. }
  do 2 (split; [reflexivity|]). split; [exact Hderive|].
  split; [intros; by apply replace_csv_first|].
  split; [intros; by apply replace_csv_absent|].
  intros results path s Hne Hno Hopen.
  assert (audit_file_of (Some path) = path) as Haudit.
  { rewrite Hderive by done. by apply replace_csv_absent. }
  split; [done|].
  destruct (generate_report_run results (Some path) s) as (lines & s1 & s2 & Hd & Ha & Hgen).
  exists lines, s1, s2.
  destruct (write_detail_report_cases results (Some path) (put_lines lines s))
    as (s1' & Hd' & Hw1 & _ & Hf1).
  rewrite Hd in Hd'. injection Hd' as <-.
  destruct (write_audit_log_cases results (Some path) s1) as (s2' & Ha' & _ & Hf2).
  rewrite Ha in Ha'. injection Ha' as <-.
  rewrite decide_False in Hf1 by done. cbn in Hw1, Hf1. rewrite Hopen in Hf1.
  rewrite Haudit, Hw1 in Hf2. cbn in Hf2. rewrite Hopen in Hf2.
  repeat split; try done.
  - rewrite Hf1. apply lookup_insert_eq.
  - rewrite Hf2. apply lookup_insert_eq.
Qed.

End Reporting.

(** ** The batch orchestrator *)

Section Batch.
Context {W : Type} {platform : Platform W}.
Local Abbreviation St := (State.t W).

Lemma create_user_echo self username email role description department (s s' : St) result :
  create_user self username email role description department s = (Ok result, s') ->
  Result.username result = username /\ Result.email result = email
  /\ Result.role result = role /\ Result.department result = department.
Proof.
  destruct (create_user_path self username email role description department s)
    as (result' & s'' & new & -> & _ & _ & Hpath).
  intros [= <- <-]. by inversion Hpath.
Qed.

Lemma row_item_strip_ok (row : Row) key v (s : St) :
  row !! key = Some (Some v) ->
  row_item_strip row key s = (Ok (stripped_field row key), s).
Proof. unfold row_item_strip, stripped_field. by intros ->. Qed.

Lemma row_get_strip_ok (row : Row) key (s : St) :
  row !! key <> Some None ->
  row_get_strip row key s = (Ok (stripped_field row key), s).
Proof.
  unfold row_get_strip, stripped_field. by destruct (row !! key) as [[v|]|].
Qed.

Lemma process_row_run self idx row (s : St) :
  row_ok row ->
  exists result s',
    process_row self idx row s = (Ok result, s')
    /\ outcome_of self (record_of_row row) result.
Proof.
  intros (Hreq & Hdep & Hdesc).
  destruct (Hreq "username") as [u Hu]; [set_solver|].
  destruct (Hreq "email") as [e He]; [set_solver|].
  destruct (Hreq "role") as [r Hr]; [set_solver|].
  unfold process_row.
  erewrite bind_ok by (by eapply row_item_strip_ok).
  erewrite bind_ok by (by eapply row_item_strip_ok).
  erewrite bind_ok by (by eapply row_item_strip_ok).
  erewrite bind_ok by (by eapply row_get_strip_ok).
  erewrite bind_ok by (by eapply row_get_strip_ok).
  rewrite bind_print.
  match goal with |- context [bind (create_user ?m ?a ?b ?c ?d ?e) _ ?st] =>
    destruct (create_user_path m a b c d e st) as (result & s1 & new & Hrun & _);
    pose proof (create_user_echo _ _ _ _ _ _ _ _ _ Hrun) as Hecho
  end.
  erewrite bind_ok by exact Hrun.
  exists result. destruct (Result.success result); rewrite bind_print; unfold ret;
    (eexists; split; [reflexivity|]); (split; [exact Hecho | eauto]).
Qed.

Lemma process_rows_run self idx rows acc (s : St) :
  Forall row_ok rows ->
  exists results s',
    process_rows self idx rows acc s = (Ok (acc ++ results), s')
    /\ Forall2 (outcome_of self) (record_of_row <$> rows) results.
Proof.
  intros Hrows. revert idx acc s.
  induction Hrows as [|row rows Hrow Hrows IH]; intros idx acc s; cbn [process_rows].
  - exists [], s. rewrite app_nil_r. by split.
  - destruct (process_row_run self idx row s Hrow) as (result & s1 & Hrun & Hout).
    erewrite bind_ok by exact Hrun.
    destruct (IH (idx + 1) (acc ++ [result]) s1) as (results & s2 & Hrest & Hall).
    exists (result :: results), s2. rewrite Hrest, <- app_assoc. by split; [|constructor].
Qed.

(** The loop goes on after a record, whatever its outcome was. *)
Lemma process_rows_continues self idx row rows acc (s s1 : St) result :
  process_row self idx row s = (Ok result, s1) ->
  process_rows self idx (row :: rows) acc s
  = process_rows self (idx + 1) rows (acc ++ [result]) s1.
Proof. intros Hrun. cbn [process_rows]. by erewrite bind_ok by exact Hrun. Qed.

Lemma required_headers_ok (fieldnames : list string) :
  required_headers ⊆ fieldnames ->
  forallb (fun h => bool_decide (h ∈ fieldnames)) required_headers = true.
Proof.
  intros Hsub. apply forallb_forall. intros h Hh%list_elem_of_In.
  apply bool_decide_eq_true. by apply Hsub.
Qed.

Lemma bulk_create_from_csv_run self csv_file text fieldnames rows (s : St) :
  State.files s !! csv_file = Some text ->
  csv_read text = (Some fieldnames, rows) ->
  required_headers ⊆ fieldnames ->
  Forall row_ok rows ->
  exists results s',
    bulk_create_from_csv self csv_file s = (Ok results, s')
    /\ Forall2 (outcome_of self) (record_of_row <$> rows) results.
Proof.
  intros Hfile Hread Hsub Hrows.
  unfold bulk_create_from_csv. rewrite !bind_print.
  unfold try_except, bind at 1, open_csv.
  cbn [State.files put_lines]. rewrite Hfile, Hread. cbn [fst snd].
  rewrite required_headers_ok by done. unfold bind, ret.
  match goal with |- context [process_rows self 1 rows [] ?st] =>
    destruct (process_rows_run self 1 rows [] st Hrows) as (results & s' & -> & Hall)
  end.
  by exists results, s'.
Qed.

End Batch.

(** ** Runs on the simulated platform *)

(** The first scenario of the specification: one valid record, one with an
    unknown role. *)
Example scenario_two_records :
  exists r0 r1 s',
    bulk_create_from_csv Sim.manager "users.csv"
      (State.mk Sim.calm [] []
         {[ "users.csv" := "username,email,role,department" +:+ nl
                           +:+ "alice,a@h.org,ClinicalAdmin,Cardiology" +:+ nl
                           +:+ "bob,b@h.org,Unknown," +:+ nl ]})
    = (Ok [r0; r1], s')
    /\ Result.success r0 = true
    /\ Result.group_name r0 = Some "HC-Clinical-App-Admins"
    /\ Result.success r1 = false
    /\ total [r0; r1] = 2 /\ successful [r0; r1] = 1 /\ failed [r0; r1] = 1.
Proof. eexists _, _, _. split; [vm_compute; reflexivity|]. by vm_compute. Qed.

(** C5. Not as the claim states it: a row that lacks a cell stops the
    batch. The file [short.csv] has the header
    [username,email,role,department] and three rows; the second,
    [bob,b@h.org,DataAnalyst], has no department cell, and the reader hands
    it out with [None] there. With every directory call answered, the first
    record is provisioned by its three calls; reading the second row then
    raises, the run prints the error and exits with status 1. No outcome is
    returned, not even the first, and the third record is never attempted.
    The same three records in a file without the department column give
    three outcomes, in order. *)
Theorem bulk_create_short_row_stops_the_batch :
  (csv_read Desk.short_csv).1 = Some ["username"; "email"; "role"; "department"]
  /\ (fun row : Row => row !! "department") <$> (csv_read Desk.short_csv).2
     = [Some (Some "Cardiology"); Some None; Some (Some "")]
  /\ (exists s',
        bulk_create_from_csv Sim.manager "short.csv" (Desk.desk Sim.calm)
        = (Raise (SystemExit 1), s')
        /\ State.calls s'
           = [Sim.alice_created; Desk.alice_bound; Desk.alice_capabilities (inl tt)]
        /\ last (State.stdout s')
           = Some "✗ Error reading CSV: 'NoneType' object has no attribute 'strip'")
  /\ (exists r1 r2 r3 s',
        bulk_create_from_csv Sim.manager "columns.csv" (Desk.desk Sim.calm)
        = (Ok [r1; r2; r3], s')
        /\ Result.username <$> [r1; r2; r3] = ["alice"; "bob"; "carol"]
        /\ Result.department <$> [r1; r2; r3] = [""; ""; ""]).
Proof.
  split; [vm_compute; reflexivity|]. split; [vm_compute; reflexivity|]. split.
  - eexists. split; [vm_compute; reflexivity|]. split; vm_compute; reflexivity.
  - eexists _, _, _, _. split; [vm_compute; reflexivity|]. split; reflexivity.
Qed.

Lemma create_user_success_xor_failure_witness :
  exists result,
    (create_user Sim.manager "alice" "a@h.org" "ClinicalAdmin" "" "Cardiology"
       (Sim.start Sim.binding_down)).1 = Ok result
    /\ Result.success result = false
    /\ Result.error result = Some "OCI Service Error: group is locked".
Proof.
  destruct (create_user_success_xor_failure Sim.manager "alice" "a@h.org" "ClinicalAdmin"
              "" "Cardiology" (Sim.start Sim.binding_down))
    as (result & s' & new & Hrun & Hcalls & _ & _ & Hfail & _).
  exists result. rewrite Hrun. split; [reflexivity|].
  vm_compute in Hrun. injection Hrun as <- <-.
  vm_compute in Hcalls. subst new.
  destruct (Hfail [_] _ [] _ eq_refl eq_refl) as (_ & Hs & He). by split.
Defined.

Lemma create_user_binding_failure_keeps_account_witness :
  exists result,
    (create_user Sim.manager "alice" "a@h.org" "ClinicalAdmin" "" "Cardiology"
       (Sim.start Sim.binding_down)).1 = Ok result
    /\ Result.success result = false
    /\ Result.user_ocid result = Some "ocid1.user.oc1..alice".
Proof.
  destruct (create_user_binding_failure_keeps_account Sim.manager "alice" "a@h.org"
              "ClinicalAdmin" "" "Cardiology" (Sim.start Sim.binding_down)
              [Sim.alice_created; Sim.alice_not_bound]
              Sim.alice_details "ocid1.user.oc1..alice" Sim.alice_binding Sim.locked)
    as (result & Hrun & Hs & Hid & _).
  - vm_compute. reflexivity.
  - apply list_elem_of_here.
  - apply list_elem_of_further, list_elem_of_here.
  - by exists result.
Defined.

Lemma create_user_invalid_role_witness :
  exists result s',
    create_user Sim.manager "bob" "b@h.org" "Unknown" "" "" (Sim.start Sim.calm)
    = (Ok result, s')
    /\ Result.success result = false
    /\ Result.user_ocid result = None
    /\ State.calls s' = [].
Proof.
  destruct (create_user_invalid_role Sim.manager "bob" "b@h.org" "Unknown" "" ""
              (Sim.start Sim.calm))
    as (result & s' & Hrun & Hs & Hid & _ & Hcalls & _).
  - apply dict_get_None. reflexivity.
  - by exists result, s'.
Defined.

Lemma create_user_group_not_found_witness :
  exists result s',
    create_user Sim.manager "dave" "d@h.org" "SecurityAdmin" "" "" (Sim.start Sim.calm)
    = (Ok result, s')
    /\ Result.success result = false
    /\ Result.error result = Some "Group not found in OCI: HC-Security-Admins"
    /\ State.calls s' = [].
Proof.
  destruct (create_user_group_not_found Sim.manager "dave" "d@h.org" "SecurityAdmin" "" ""
              (Sim.start Sim.calm) "HC-Security-Admins")
    as (result & s' & Hrun & Hs & _ & He & Hcalls).
  - reflexivity.
  - reflexivity.
  - by exists result, s'.
Defined.

Lemma create_user_account_specification_witness :
  CreateUserDetails.description Sim.alice_details = "Healthcare ClinicalAdmin - Cardiology"
  /\ CreateUserDetails.freeform_tags Sim.alice_details =
     [ ("Role", "ClinicalAdmin"); ("Department", "Cardiology");
       ("CreatedBy", "Automated-Provisioning"); ("CreatedDate", "2024-03-01") ].
Proof.
  destruct (create_user_account_specification Sim.manager "alice" "a@h.org"
              "ClinicalAdmin" "" "Cardiology" (Sim.start Sim.binding_down)
              [Sim.alice_created; Sim.alice_not_bound]
              Sim.alice_details (inl "ocid1.user.oc1..alice"))
    as (Hdesc & Htags & _).
  - vm_compute. reflexivity.
  - apply list_elem_of_here.
  - split; [by apply Hdesc | exact Htags].
Defined.

Lemma create_user_description_verbatim_witness :
  CreateUserDetails.description Sim.chief_details = "Chief of Cardiology - Cardiology".
Proof.
  destruct (create_user_description_verbatim Sim.manager "alice" "a@h.org"
              "ClinicalAdmin" "Chief of Cardiology" "Cardiology" (Sim.start Sim.calm)
              [ EvCreateUser Sim.chief_details (inl "ocid1.user.oc1..alice");
                EvAddUserToGroup Sim.alice_binding (inl tt);
                EvUpdateUserCapabilities "ocid1.user.oc1..alice" console_only (inl tt) ]
              Sim.chief_details (inl "ocid1.user.oc1..alice"))
    as (Hdesc & _).
  - vm_compute. reflexivity.
  - apply list_elem_of_here.
  - by apply Hdesc.
Defined.

Ltac each_header Hh :=
  unfold required_headers in Hh;
  apply elem_of_cons in Hh as [->|Hh];
    [|apply elem_of_cons in Hh as [->|Hh];
       [|apply elem_of_cons in Hh as [->|Hh]; [|by apply elem_of_nil in Hh]]].

Lemma audit_file_derivation_witness :
  audit_file_of (Some "report.txt") = "report.txt"
  /\ exists s2,
       generate_report [] (Some "report.txt") (Sim.start Sim.calm) = (Ok tt, s2)
       /\ State.files s2 !! "report.txt"
          = Some (json_dump (audit_doc [] (first_reading Sim.calm))).
Proof.
  destruct (@audit_file_derivation Sim.world Sim.platform) as (_ & _ & _ & _ & _ & H).
  destruct (H [] "report.txt" (Sim.start Sim.calm))
    as (Haudit & lines & s1 & s2 & _ & _ & _ & Hgen & Hfile).
  - done.
  - intros Hocc%str_contains_spec. by vm_compute in Hocc.
  - reflexivity.
  - split; [done|]. by exists s2.
Defined.

(** The other scenarios of the specification. *)
Example scenario_group_missing :
  exists result s',
    create_user Sim.manager "dave" "d@h.org" "SecurityAdmin" "" "" (Sim.start Sim.calm)
    = (Ok result, s')
    /\ Result.success result = false
    /\ Result.error result = Some "Group not found in OCI: HC-Security-Admins"
    /\ State.calls s' = [].
Proof. eexists _, _. split; [vm_compute; reflexivity|]. by vm_compute. Qed.

Example scenario_binding_fails :
  exists result s',
    create_user Sim.manager "alice" "a@h.org" "ClinicalAdmin" "" "Cardiology"
      (Sim.start Sim.binding_down) = (Ok result, s')
    /\ Result.success result = false
    /\ Result.user_ocid result = Some "ocid1.user.oc1..alice"
    /\ Result.group_name result = Some "HC-Clinical-App-Admins"
    /\ State.calls s' = [Sim.alice_created; Sim.alice_not_bound].
Proof. eexists _, _. split; [vm_compute; reflexivity|]. by vm_compute. Qed.

(** A report path without [.csv]: the audit log takes the place of the
    detail report. *)
Example report_overwritten :
  (fun files => (files !! "report.txt", files !! "audit.json"))
    (State.files (generate_report [] (Some "report.txt") (Sim.start Sim.calm)).2)
  = (Some (Sim.dump (audit_doc [] (datetime.mk 2024 3 1 9 0 0 0))), None).
Proof. vm_compute. reflexivity. Qed.

(** ** More on the provisioning engine *)

Section Engine.
Context {W : Type} {platform : Platform W}.
Local Abbreviation St := (State.t W).

Ltac on_path H := inversion H; subst; clear H; cbn in *.

Ltac in_list :=
  repeat match goal with
  | H : _ ∈ [] |- _ => by apply elem_of_nil in H
  | H : _ ∈ _ :: _ |- _ => apply elem_of_cons in H as [H|H]; simplify_eq
  end.

Ltac find_in := repeat ((by apply list_elem_of_here) || apply list_elem_of_further).

(** X1. Every capability update that [create_user] sends enables the
    console password and disables API keys, and it is sent only for an
    account that the same run created and bound to a group. *)
Theorem create_user_capabilities_console_only self username email role description
    department (s : St) new user_id details r :
  State.calls (create_user self username email role description department s).2
    = State.calls s ++ new ->
  EvUpdateUserCapabilities user_id details r ∈ new ->
  UpdateUserCapabilitiesDetails.can_use_console_password details = true
  /\ UpdateUserCapabilitiesDetails.can_use_api_keys details = false
  /\ (exists spec, EvCreateUser spec (inl user_id) ∈ new)
  /\ (exists binding,
        AddUserToGroupDetails.user_id binding = user_id
        /\ EvAddUserToGroup binding (inl tt) ∈ new).
Proof.
  intros Hcalls Hin.
  destruct (create_user_run_path _ _ _ _ _ _ _ _ Hcalls) as (result & _ & Hpath).
  on_path Hpath; in_list.
  all: split; [done|]; split; [done|];
    split; [eexists; find_in | eexists; split; [|find_in]; reflexivity].
Qed.

(** X2. Every group binding that [create_user] sends binds the account
    created in the same run to the identifier that the group cache holds for
    the group the registry gives the role. *)
Theorem create_user_binds_registry_group self username email role description
    department (s : St) new binding r :
  State.calls (create_user self username email role description department s).2
    = State.calls s ++ new ->
  EvAddUserToGroup binding r ∈ new ->
  exists g spec,
    dict_get ROLE_MAPPINGS role = Some g
    /\ dict_get (group_cache self) g = Some (AddUserToGroupDetails.group_id binding)
    /\ EvCreateUser spec (inl (AddUserToGroupDetails.user_id binding)) ∈ new.
Proof.
  intros Hcalls Hin.
  destruct (create_user_run_path _ _ _ _ _ _ _ _ Hcalls) as (result & _ & Hpath).
  on_path Hpath; in_list.
  all: eexists _, _; split; [eassumption|]; split; [eassumption|]; find_in.
Qed.

(** X3. The directory calls of one run of [create_user] are one of four
    sequences: none; a creation; a successful creation followed by a binding
    of the created account; a successful creation and a successful binding
    followed by a capability update of the created account.  So there are at
    most three calls, each kind at most once, in this order, and no call
    follows a failed one. *)
Theorem create_user_calls_once_in_order self username email role description department
    (s : St) :
  exists new,
    State.calls (create_user self username email role description department s).2
      = State.calls s ++ new
    /\ (new = []
        \/ (exists spec r, new = [EvCreateUser spec r])
        \/ (exists spec ocid binding r,
              new = [EvCreateUser spec (inl ocid); EvAddUserToGroup binding r]
              /\ AddUserToGroupDetails.user_id binding = ocid)
        \/ (exists spec ocid binding caps r,
              new = [ EvCreateUser spec (inl ocid); EvAddUserToGroup binding (inl tt);
                      EvUpdateUserCapabilities ocid caps r ]
              /\ AddUserToGroupDetails.user_id binding = ocid))
    /\ (length new <= 3)%nat.
Proof.
  destruct (create_user_path self username email role description department s)
    as (result & s' & new & Hrun & Hcalls & _ & Hpath).
  rewrite Hrun. cbn [snd]. exists new. split; [done|].
  on_path Hpath; (split; [|lia]).
  - by left.
  - by left.
  - right; left. by eexists _, _.
  - right; right; left. by eexists _, _, _, _.
  - right; right; right. by eexists _, _, _, _, _.
  - right; right; right. by eexists _, _, _, _, _.
Qed.

(** X4. When the capability update fails, the outcome is a failure that
    keeps the account identifier and the group name and carries the message
    of the fault; the calls are the creation, the binding and the failed
    update, so the account and its membership are left in place. *)
Theorem create_user_capability_failure_keeps_membership self username email role
    description department (s : St) new user_id details f :
  State.calls (create_user self username email role description department s).2
    = State.calls s ++ new ->
  EvUpdateUserCapabilities user_id details (inr f) ∈ new ->
  exists result,
    (create_user self username email role description department s).1 = Ok result
    /\ Result.success result = false
    /\ Result.user_ocid result = Some user_id
    /\ Result.group_name result = dict_get ROLE_MAPPINGS role
    /\ Result.error result = Some (fault_message f)
    /\ (exists spec binding,
          new = [ EvCreateUser spec (inl user_id); EvAddUserToGroup binding (inl tt);
                  EvUpdateUserCapabilities user_id details (inr f) ]).
Proof.
  intros Hcalls Hin.
  destruct (create_user_run_path _ _ _ _ _ _ _ _ Hcalls) as (result & Hrun & Hpath).
  exists result. split; [done|].
  on_path Hpath; in_list. rewrite H. repeat split. by eexists _, _.
Qed.

(** X5. When the creation call fails, the outcome is a failure without
    account identifier that carries the message of the fault and the group
    name, and the creation call is the only call of the run. *)
Theorem create_user_creation_failure self username email role description department
    (s : St) new spec f :
  State.calls (create_user self username email role description department s).2
    = State.calls s ++ new ->
  EvCreateUser spec (inr f) ∈ new ->
  exists result,
    (create_user self username email role description department s).1 = Ok result
    /\ Result.success result = false
    /\ Result.user_ocid result = None
    /\ Result.group_name result = dict_get ROLE_MAPPINGS role
    /\ Result.error result = Some (fault_message f)
    /\ new = [EvCreateUser spec (inr f)].
Proof.
  intros Hcalls Hin.
  destruct (create_user_run_path _ _ _ _ _ _ _ _ Hcalls) as (result & Hrun & Hpath).
  exists result. split; [done|].
  on_path Hpath; in_list. by rewrite H.
Qed.

(** X6. [create_user] reports success exactly when its calls are the three
    successful calls: creation, binding, capability update.  A successful
    outcome has a role of the registry, the group of that role, and the
    identifier that the creation call returned. *)
Theorem create_user_success_iff_three_calls self username email role description
    department (s : St) :
  exists result s' new,
    create_user self username email role description department s = (Ok result, s')
    /\ State.calls s' = State.calls s ++ new
    /\ (Result.success result = true <->
        exists spec ocid binding caps,
          new = [ EvCreateUser spec (inl ocid); EvAddUserToGroup binding (inl tt);
                  EvUpdateUserCapabilities ocid caps (inl tt) ])
    /\ (Result.success result = true ->
        role ∈ dict_keys ROLE_MAPPINGS
        /\ Result.group_name result = dict_get ROLE_MAPPINGS role
        /\ exists spec, EvCreateUser spec (inl (default "" (Result.user_ocid result))) ∈ new).
Proof.
  destruct (create_user_path self username email role description department s)
    as (result & s' & new & Hrun & Hcalls & _ & Hpath).
  exists result, s', new. do 2 (split; [done|]).
  on_path Hpath;
    try (split; [split; [discriminate | by intros (? & ? & ? & ? & ?)] | discriminate]).
  split; [split; [intros _; by eexists _, _, _, _ | done]|].
  intros _. split; [|split].
  - apply dec_stable. intros Hn.
    assert (dict_get ROLE_MAPPINGS role = None) as Hnone by (by apply dict_get_None).
    change (dict_get ROLE_MAPPINGS role = Some g) in H. congruence.
  - by rewrite H.
  - eexists. apply list_elem_of_here.
Qed.

(** X7. Every outcome of [create_user] echoes the username, the email, the
    role and the department it was given and is stamped with the first clock
    reading of the run; [create_user] never writes a file; an outcome without
    group name made no directory call and has no account identifier. *)
Theorem create_user_echoes_and_stamps self username email role description department
    (s : St) :
  exists result s',
    create_user self username email role description department s = (Ok result, s')
    /\ Result.username result = username
    /\ Result.email result = email
    /\ Result.role result = role
    /\ Result.department result = department
    /\ Result.timestamp result = datetime.isoformat (first_reading (State.world s))
    /\ State.files s' = State.files s
    /\ (Result.group_name result = None ->
        State.calls s' = State.calls s /\ Result.user_ocid result = None).
Proof.
  destruct (create_user_path self username email role description department s)
    as (result & s' & new & Hrun & Hcalls & Hfiles & Hpath).
  exists result, s'. split; [done|].
  on_path Hpath; repeat split; try done; rewrite Hcalls; by rewrite ?app_nil_r.
Qed.

End Engine.

(** ** The group resolver *)

Lemma last_id_cons name g groups :
  last_id name (g :: groups)
  = match last_id name groups with
    | Some i => Some i
    | None => if decide (Group.name g = name) then Some (Group.id g) else None
    end.
Proof.
  unfold last_id. rewrite filter_cons. case_decide; [|by destruct (last _)].
  destruct (filter _ groups) as [|g' l] eqn:Hf; [done|].
  rewrite last_cons. by destruct (last (g' :: l)) eqn:Hl.
Qed.

Lemma cache_from (d : dict string) groups name :
  dict_get (foldl cache_step d groups) name
  = match last_id name groups with
    | Some i => Some i
    | None => dict_get d name
    end.
Proof.
  revert d. induction groups as [|g groups IH]; intros d; [reflexivity|].
  cbn [foldl]. rewrite IH, last_id_cons. destruct (last_id name groups); [done|].
  unfold cache_step. rewrite dict_get_set. by case_decide.
Qed.

Lemma cache_NoDup_from (d : dict string) groups :
  NoDup (dict_keys d) -> NoDup (dict_keys (foldl cache_step d groups)).
Proof.
  revert d. induction groups as [|g groups IH]; intros d Hd; cbn [foldl]; [done|].
  by apply IH, dict_set_NoDup.
Qed.

Lemma last_id_None name groups :
  last_id name groups = None <-> name ∉ Group.name <$> groups.
Proof.
  induction groups as [|g groups IH].
  { split; [intros _; apply not_elem_of_nil | intros _; reflexivity]. }
  rewrite last_id_cons, fmap_cons, not_elem_of_cons, <- IH.
  destruct (last_id name groups).
  - split; [done | by intros [_ ?]].
  - case_decide; split.
    + done.
    + intros [? _]. congruence.
    + intros _. split; [congruence | done].
    + done.
Qed.

Lemma cache_keys groups name :
  name ∈ dict_keys (foldl cache_step [] groups) <-> name ∈ Group.name <$> groups.
Proof.
  split; intros Hin; apply dec_stable; intros Hn; revert Hin.
  - apply last_id_None in Hn. apply dict_get_None. by rewrite cache_from, Hn.
  - apply dict_get_None in Hn. rewrite cache_from in Hn.
    apply last_id_None. by destruct (last_id name groups).
Qed.

(** What the cache holds after the loop over the listing. *)
Lemma cache_lookup groups name :
  dict_get (foldl cache_step [] groups) name = last_id name groups.
Proof. rewrite cache_from. by destruct (last_id name groups). Qed.

Lemma cache_member groups name :
  dict_in name (foldl cache_step [] groups) = true <-> name ∈ Group.name <$> groups.
Proof.
  unfold dict_in. rewrite bool_decide_eq_true, <- cache_keys.
  rewrite <- not_eq_None_Some, dict_get_None. split; [apply dec_stable | auto].
Qed.

Lemma cache_length groups :
  length (foldl cache_step [] groups) = length (remove_dups (Group.name <$> groups)).
Proof.
  change (length (foldl cache_step [] groups))
    with (length (A := string * string) (foldl cache_step [] groups)).
  rewrite <- (length_fmap fst). apply Permutation_length, NoDup_Permutation.
  - apply cache_NoDup_from, NoDup_nil_2.
  - apply NoDup_remove_dups.
  - intros name. rewrite elem_of_remove_dups. apply cache_keys.
Qed.

Section Groups.
Context {W : Type} {platform : Platform W}.
Local Abbreviation St := (State.t W).

(** The run of [_load_groups] when the listing succeeds. *)
Lemma load_groups_listed tenancy groups w (s : St) :
  client_list_groups tenancy (State.world s) = (inl groups, w) ->
  let cache := foldl cache_step [] groups in
  _load_groups tenancy s =
  (Ok cache,
   State.mk w (State.calls s ++ [EvListGroups tenancy (inl groups)])
     (State.stdout s
      ++ [ nl +:+ "📋 Loading IAM groups...";
           "✓ Loaded " +:+ str_of_int (Z.of_nat (length cache)) +:+ " groups" ]
      ++ (if decide (healthcare_names (dict_keys cache) = []) then []
          else ["  Healthcare groups: "
                +:+ str_join ", " (healthcare_names (dict_keys cache))]))
     (State.files s)).
Proof.
  intros Hlist cache.
  unfold _load_groups, try_except, bind, identity_list_groups, client_call, print, ret.
  cbn [State.world State.calls State.stdout State.files]. rewrite Hlist.
  fold cache_step. fold cache. fold (healthcare_names (dict_keys cache)).
  cbn [State.world State.calls State.stdout State.files].
  destruct (decide (healthcare_names (dict_keys cache) = [])) as [Hhc|Hhc].
  - rewrite bool_decide_eq_true_2 by done. rewrite <- !app_assoc, app_nil_r. reflexivity.
  - rewrite bool_decide_eq_false_2 by done.
    cbn [State.world State.calls State.stdout State.files].
    rewrite <- !app_assoc. reflexivity.
Qed.

(** The run of [_load_groups] when the listing fails. *)
Lemma load_groups_refused tenancy f w (s : St) :
  client_list_groups tenancy (State.world s) = (inr f, w) ->
  _load_groups tenancy s =
  (Raise (SystemExit 1),
   State.mk w (State.calls s ++ [EvListGroups tenancy (inr f)])
     (State.stdout s
      ++ [ nl +:+ "📋 Loading IAM groups...";
           "✗ Error loading groups: " +:+ exn_str (exn_of_fault f) ])
     (State.files s)).
Proof.
  intros Hlist.
  unfold _load_groups, try_except, bind, identity_list_groups, client_call, print, ret,
    sys_exit, raise.
  cbn [State.world State.calls State.stdout State.files]. rewrite Hlist.
  destruct f; cbn; by rewrite <- !app_assoc.
Qed.

(** X8. When the listing succeeds, [_load_groups] returns a cache whose
    keys are exactly the listed names, each once, and which maps a name to
    the identifier of the last listed group of that name; it makes the one
    listing call, touches no file, and prints the number of distinct names
    and, when there is one, the line of the names that start with [HC-]. *)
Theorem load_groups_caches_last_listed tenancy groups w (s : St) :
  client_list_groups tenancy (State.world s) = (inl groups, w) ->
  exists cache s',
    _load_groups tenancy s = (Ok cache, s')
    /\ (forall name, dict_get cache name = last_id name groups)
    /\ (forall name, dict_in name cache = true <-> name ∈ Group.name <$> groups)
    /\ NoDup (dict_keys cache)
    /\ length cache = length (remove_dups (Group.name <$> groups))
    /\ State.calls s' = State.calls s ++ [EvListGroups tenancy (inl groups)]
    /\ State.files s' = State.files s
    /\ State.stdout s' =
       State.stdout s
       ++ [ nl +:+ "📋 Loading IAM groups...";
            "✓ Loaded " +:+ str_of_int (Z.of_nat (length cache)) +:+ " groups" ]
       ++ (if decide (healthcare_names (dict_keys cache) = []) then []
           else ["  Healthcare groups: "
                 +:+ str_join ", " (healthcare_names (dict_keys cache))]).
Proof.
  intros Hlist. eexists _, _. split; [by apply load_groups_listed|].
  cbn [State.calls State.files State.stdout].
  split; [|split; [|split; [|split]]]; [| | | |done].
  - apply cache_lookup.
  - apply cache_member.
  - apply cache_NoDup_from, NoDup_nil_2.
  - apply cache_length.
Qed.

(** X9. When the listing fails, whatever the fault, [_load_groups] prints
    the error and exits with status 1; the failed listing is its only call
    and no file is touched. *)
Theorem load_groups_failure_exits tenancy f w (s : St) :
  client_list_groups tenancy (State.world s) = (inr f, w) ->
  exists s',
    _load_groups tenancy s = (Raise (SystemExit 1), s')
    /\ State.calls s' = State.calls s ++ [EvListGroups tenancy (inr f)]
    /\ State.files s' = State.files s
    /\ State.stdout s' =
       State.stdout s
       ++ [ nl +:+ "📋 Loading IAM groups...";
            "✗ Error loading groups: " +:+ exn_str (exn_of_fault f) ].
Proof.
  intros Hlist. eexists. split; [by apply load_groups_refused|]. done.
Qed.

End Groups.

(** ** Stripping *)

Lemma str_rev_app_spec s acc : String.rev_app s acc = String.rev s +:+ acc.
Proof.
  unfold String.rev. revert acc. induction s as [|c s IH]; intros acc; [done|].
  cbn [String.rev_app]. rewrite IH, (IH (String c "")), app_assoc_str. done.
Qed.

Lemma str_rev_cons c s : String.rev (String c s) = String.rev s +:+ String c "".
Proof. unfold String.rev at 1. cbn [String.rev_app]. by rewrite str_rev_app_spec. Qed.

Lemma str_rev_app_distr a b : String.rev (a +:+ b) = String.rev b +:+ String.rev a.
Proof.
  induction a as [|c a IH]; [by rewrite app_empty_l, append_empty_r|].
  by rewrite app_cons, !str_rev_cons, IH, app_assoc_str.
Qed.

Lemma str_rev_involutive s : String.rev (String.rev s) = s.
Proof.
  induction s as [|c s IH]; [done|]. by rewrite str_rev_cons, str_rev_app_distr, IH.
Qed.

Lemma length_app_str a b :
  String.length (a +:+ b) = (String.length a + String.length b)%nat.
Proof. induction a as [|c a IH]; [done|]. rewrite app_cons. cbn. by rewrite IH. Qed.

(** A no-break space and a tab at the start, an em space at the end. *)
Example strip_unicode :
  strip (utf8 [194; 160]%N +:+ " alice" +:+ utf8 [226; 128; 131; 9]%N) = "alice".
Proof. vm_compute. reflexivity. Qed.

Lemma run_of_impl (P Q : string -> Prop) s :
  (forall ch, P ch -> Q ch) -> run_of P s -> run_of Q s.
Proof. intros HPQ. induction 1; constructor; auto. Qed.

Lemma run_of_app P a b : run_of P a -> run_of P b -> run_of P (a +:+ b).
Proof.
  intros Ha Hb. induction Ha as [|ch s Hch Hs IH]; [done|].
  rewrite app_assoc_str. by constructor.
Qed.

Lemma run_of_one (P : string -> Prop) ch : P ch -> run_of P ch.
Proof. intros Hch. rewrite <- (append_empty_r ch). constructor; [done | constructor]. Qed.

Lemma run_of_rev P s :
  run_of (fun ch => P (String.rev ch)) s -> run_of P (String.rev s).
Proof.
  induction 1 as [|ch s Hch Hs IH]; [constructor|].
  rewrite str_rev_app_distr. apply run_of_app; [done | by apply run_of_one].
Qed.

(** What [strip_left] takes off is a run of characters that [space]
    accepts. *)
Lemma strip_left_decomp space s :
  exists ws, s = ws +:+ strip_left space s /\ run_of (fun ch => space ch = true) ws.
Proof.
  assert (forall n s, (String.length s <= n)%nat ->
            exists ws, s = ws +:+ strip_left space s
                       /\ run_of (fun ch => space ch = true) ws) as Hall.
  2:{ by apply (Hall (String.length s)). }
  clear s. intros n. induction n as [|n IH]; intros s Hlen.
  { destruct s; [|cbn in Hlen; lia]. exists "". split; [done | constructor]. }
  destruct s as [|a s1]; [exists ""; split; [done | constructor]|].
  cbn [strip_left String.length] in *.
  destruct (space (String a "")) eqn:H1.
  { destruct (IH s1) as (ws & Hs & Hws); [lia|].
    exists (String a "" +:+ ws). split; [|by constructor].
    rewrite app_assoc_str. change (String a s1 = String a (ws +:+ strip_left space s1)).
    by rewrite <- Hs. }
  destruct s1 as [|b s2]; [exists ""; split; [done | constructor]|].
  cbn [String.length] in *.
  destruct (space (String a (String b ""))) eqn:H2.
  { destruct (IH s2) as (ws & Hs & Hws); [lia|].
    exists (String a (String b "") +:+ ws). split; [|by constructor].
    rewrite app_assoc_str.
    change (String a (String b s2) = String a (String b (ws +:+ strip_left space s2))).
    by rewrite <- Hs. }
  destruct s2 as [|c s3]; [exists ""; split; [done | constructor]|].
  cbn [String.length] in *.
  destruct (space (String a (String b (String c "")))) eqn:H3.
  { destruct (IH s3) as (ws & Hs & Hws); [lia|].
    exists (String a (String b (String c "")) +:+ ws). split; [|by constructor].
    rewrite app_assoc_str.
    change (String a (String b (String c s3))
            = String a (String b (String c (ws +:+ strip_left space s3)))).
    by rewrite <- Hs. }
  exists "". split; [done | constructor].
Qed.

(** What [strip_left] leaves starts with no character that [space]
    accepts. *)
Lemma strip_left_start space s ch rest :
  strip_left space s = ch +:+ rest ->
  (1 <= String.length ch <= 3)%nat ->
  space ch = false.
Proof.
  assert (forall n s, (String.length s <= n)%nat ->
            strip_left space s = ch +:+ rest ->
            (1 <= String.length ch <= 3)%nat -> space ch = false) as Hall.
  2:{ by apply (Hall (String.length s)). }
  clear s. intros n. induction n as [|n IH]; intros s Hlen Hs Hch.
  { destruct s; [|cbn in Hlen; lia]. cbn in Hs.
    destruct ch; [cbn in Hch; lia | discriminate]. }
  destruct s as [|a s1].
  { cbn in Hs. destruct ch; [cbn in Hch; lia | discriminate]. }
  cbn [strip_left String.length] in *.
  destruct (space (String a "")) eqn:H1; [apply (IH s1); [lia | done..]|].
  destruct s1 as [|b s2].
  { destruct ch as [|x [|y ch]]; cbn in Hch, Hs; [lia | | discriminate].
    by injection Hs as <- _. }
  cbn [String.length] in *.
  destruct (space (String a (String b ""))) eqn:H2; [apply (IH s2); [lia | done..]|].
  destruct s2 as [|c s3].
  { destruct ch as [|x [|y [|z ch]]]; cbn in Hch, Hs; [lia | | | discriminate].
    - by injection Hs as <- _.
    - by injection Hs as <- <- _. }
  cbn [String.length] in *.
  destruct (space (String a (String b (String c "")))) eqn:H3;
    [apply (IH s3); [lia | done..]|].
  destruct ch as [|x [|y [|z [|u ch]]]]; cbn in Hch, Hs; [lia | | | | lia].
  - by injection Hs as <- _.
  - by injection Hs as <- <- _.
  - by injection Hs as <- <- <- _.
Qed.

(** A whitespace character is one to three bytes long. *)
Lemma whitespace_length ch :
  ch ∈ whitespace -> (1 <= String.length ch <= 3)%nat.
Proof.
  revert ch. apply Forall_forall. unfold whitespace.
  repeat (apply Forall_cons_2; [cbn; lia|]). apply Forall_nil_2.
Qed.

Lemma length_rev s : String.length (String.rev s) = String.length s.
Proof.
  induction s as [|c s IH]; [done|].
  rewrite str_rev_cons, length_app_str, IH. cbn. lia.
Qed.

Lemma lstrip_blank s : exists before, s = before +:+ lstrip s /\ blank before.
Proof.
  destruct (strip_left_decomp isspace s) as (ws & Hs & Hws).
  exists ws. split; [done|]. eapply run_of_impl; [|exact Hws].
  intros ch Hch. by apply bool_decide_eq_true in Hch.
Qed.

Lemma lstrip_start s ch rest : ch ∈ whitespace -> lstrip s <> ch +:+ rest.
Proof.
  intros Hch Hs. apply strip_left_start in Hs; [|by apply whitespace_length].
  unfold isspace in Hs. by apply bool_decide_eq_false in Hs.
Qed.

Lemma rstrip_blank s : exists after, s = rstrip s +:+ after /\ blank after.
Proof.
  destruct (strip_left_decomp (fun ch => isspace (String.rev ch)) (String.rev s))
    as (ws & Hs & Hws).
  exists (String.rev ws). split.
  - unfold rstrip. by rewrite <- str_rev_app_distr, <- Hs, str_rev_involutive.
  - apply run_of_rev. eapply run_of_impl; [|exact Hws].
    intros ch Hch. by apply bool_decide_eq_true in Hch.
Qed.

Lemma rstrip_end s ch rest : ch ∈ whitespace -> rstrip s <> rest +:+ ch.
Proof.
  intros Hch Hs. apply (f_equal String.rev) in Hs. unfold rstrip in Hs.
  rewrite str_rev_involutive, str_rev_app_distr in Hs.
  apply strip_left_start in Hs.
  - rewrite str_rev_involutive in Hs. unfold isspace in Hs.
    by apply bool_decide_eq_false in Hs.
  - rewrite length_rev. by apply whitespace_length.
Qed.

(** [strip] takes whitespace off both ends and nothing else, and leaves
    no whitespace at either end. *)
Lemma strip_trimmed_of s : trimmed_of s (strip s).
Proof.
  destruct (lstrip_blank s) as (before & Hs & Hb).
  destruct (rstrip_blank (lstrip s)) as (after & Hs' & Ha).
  fold (strip s) in Hs'. split.
  - exists before, after. split; [|done]. by rewrite <- Hs', <- Hs.
  - intros ch rest Hch. split; [|by apply rstrip_end].
    intros Hstrip. rewrite Hstrip, app_assoc_str in Hs'.
    by apply lstrip_start in Hs'.
Qed.

(** ** More on the batch orchestrator *)

Section Orchestrator.
Context {W : Type} {platform : Platform W}.
Local Abbreviation St := (State.t W).

(** What one call of [create_user] does to the state: no file is written,
    at most three directory calls are made. *)
Lemma create_user_effect self username email role description department (s : St) :
  exists result s' new,
    create_user self username email role description department s = (Ok result, s')
    /\ State.files s' = State.files s
    /\ State.calls s' = State.calls s ++ new
    /\ (length new <= 3)%nat.
Proof.
  destruct (create_user_path self username email role description department s)
    as (result & s' & new & Hrun & Hcalls & Hfiles & Hpath).
  exists result, s', new. do 3 (split; [done|]).
  inversion Hpath; cbn; lia.
Qed.

(** A row either parses into a record, which is then attempted, or stops
    the loop with an exception before anything is printed or called. *)
Lemma process_row_cases self idx (row : Row) (s : St) :
  (row_ok row
   /\ exists result s' new,
        process_row self idx row s = (Ok result, s')
        /\ outcome_of self (record_of_row row) result
        /\ State.files s' = State.files s
        /\ State.calls s' = State.calls s ++ new
        /\ (length new <= 3)%nat)
  \/ (~ row_ok row
      /\ exists msg, process_row self idx row s = (Raise (Exception msg), s)).
Proof.
  destruct (row !! "username") as [[u|]|] eqn:Hu; cycle 1.
  1,2: right; (split; [intros (Hreq & _); destruct (Hreq "username") as [v Hv];
                       [set_solver | congruence]|]);
       unfold process_row, row_item_strip, bind; rewrite Hu; by eexists.
  destruct (row !! "email") as [[e|]|] eqn:He; cycle 1.
  1,2: right; (split; [intros (Hreq & _); destruct (Hreq "email") as [v Hv];
                       [set_solver | congruence]|]);
       unfold process_row, row_item_strip, bind, ret; rewrite Hu, He; by eexists.
  destruct (row !! "role") as [[r|]|] eqn:Hr; cycle 1.
  1,2: right; (split; [intros (Hreq & _); destruct (Hreq "role") as [v Hv];
                       [set_solver | congruence]|]);
       unfold process_row, row_item_strip, bind, ret; rewrite Hu, He, Hr; by eexists.
  destruct (decide (row !! "department" = Some None)) as [Hd|Hd].
  { right. split; [by intros (_ & ? & _)|].
    unfold process_row, row_item_strip, row_get_strip, bind, ret.
    rewrite Hu, He, Hr, Hd. by eexists. }
  destruct (decide (row !! "description" = Some None)) as [Hc|Hc].
  { right. split; [by intros (_ & _ & ?)|].
    unfold process_row, row_item_strip, row_get_strip, bind, ret.
    rewrite Hu, He, Hr, Hc. destruct (row !! "department") as [[d|]|]; try done; by eexists. }
  left.
  assert (row_ok row) as Hok.
  { split; [|done]. intros key Hkey. unfold required_headers in Hkey.
    repeat (apply elem_of_cons in Hkey as [->|Hkey]; [by eexists|]).
    by apply elem_of_nil in Hkey. }
  split; [done|].
  unfold process_row.
  erewrite bind_ok by (by eapply row_item_strip_ok).
  erewrite bind_ok by (by eapply row_item_strip_ok).
  erewrite bind_ok by (by eapply row_item_strip_ok).
  erewrite bind_ok by (by eapply row_get_strip_ok).
  erewrite bind_ok by (by eapply row_get_strip_ok).
  rewrite bind_print.
  match goal with |- context [bind (create_user ?m ?a ?b ?c ?d ?e) _ ?st] =>
    destruct (create_user_effect m a b c d e st)
      as (result & s1 & new & Hrun & Hfiles & Hcalls & Hlen);
    pose proof (create_user_echo _ _ _ _ _ _ _ _ _ Hrun) as Hecho
  end.
  erewrite bind_ok by exact Hrun.
  exists result. destruct (Result.success result); rewrite bind_print; unfold ret;
    (eexists _, new; split; [reflexivity|]);
    (split; [split; [exact Hecho | eauto]|]); by cbn.
Qed.

Lemma process_row_unreadable self idx (row : Row) (s : St) :
  ~ row_ok row -> exists msg, process_row self idx row s = (Raise (Exception msg), s).
Proof. intros Hbad. by destruct (process_row_cases self idx row s) as [[? _]|[_ ?]]. Qed.

(** The loop over a list of rows in two parts. *)
Lemma process_rows_app self idx good rest acc (s s1 : St) results :
  process_rows self idx good acc s = (Ok results, s1) ->
  process_rows self idx (good ++ rest) acc s
  = process_rows self (idx + Z.of_nat (length good)) rest results s1.
Proof.
  revert idx acc s. induction good as [|row good IH]; intros idx acc s; cbn [process_rows app].
  - intros [= <- <-]. by rewrite Z.add_0_r.
  - unfold bind at 1 2. destruct (process_row self idx row s) as [[result|e] s2]; [|done].
    intros Hgood. rewrite (IH _ _ _ Hgood). f_equal. cbn [length]. lia.
Qed.

(** What the loop does to the state, whatever the rows are; when it stops
    early, the state is the one reached by the rows before the unreadable
    one. *)
Lemma process_rows_cases self idx rows acc (s : St) :
  exists new s',
    State.calls s' = State.calls s ++ new
    /\ (length new <= 3 * length rows)%nat
    /\ State.files s' = State.files s
    /\ ((Forall row_ok rows
         /\ exists results,
              process_rows self idx rows acc s = (Ok (acc ++ results), s')
              /\ Forall2 (outcome_of self) (record_of_row <$> rows) results)
        \/ (exists good bad rest msg results,
              rows = good ++ bad :: rest /\ Forall row_ok good /\ ~ row_ok bad
              /\ process_rows self idx rows acc s = (Raise (Exception msg), s')
              /\ process_rows self idx good acc s = (Ok (acc ++ results), s')
              /\ Forall2 (outcome_of self) (record_of_row <$> good) results)).
Proof.
  revert idx acc s. induction rows as [|row rows IH]; intros idx acc s.
  - exists [], s. rewrite !app_nil_r. do 3 (split; [done || (cbn; lia)|]).
    left. split; [done|]. exists []. rewrite app_nil_r. by split.
  - destruct (process_row_cases self idx row s)
      as [(Hok & result & s1 & new1 & Hrun & Hout & Hf1 & Hc1 & Hl1)|(Hbad & msg & Hrun)].
    + destruct (IH (idx + 1) (acc ++ [result]) s1)
        as (new2 & s2 & Hc2 & Hl2 & Hf2 & Hrest).
      exists (new1 ++ new2), s2.
      split; [by rewrite Hc2, Hc1, app_assoc|].
      split; [rewrite length_app; cbn [length]; lia|].
      split; [congruence|].
      cbn [process_rows]. erewrite bind_ok by exact Hrun.
      destruct Hrest as [(Hall & results & Hrows & Hres)
                        |(good & bad & rest & msg & results & -> & Hgood & Hbad & Hr1 & Hr2 & Hres)].
      * left. split; [by constructor|]. exists (result :: results).
        rewrite Hrows, <- app_assoc. by split; [|constructor].
      * right. exists (row :: good), bad, rest, msg, (result :: results).
        split; [done|]. split; [by constructor|]. split; [done|].
        split; [done|]. cbn [process_rows]. erewrite bind_ok by exact Hrun.
        rewrite Hr2, <- app_assoc. by split; [|constructor].
    + exists [], s. rewrite app_nil_r. do 3 (split; [done || (cbn; lia)|]).
      right. exists [], row, rows, msg, []. rewrite app_nil_r.
      split; [done|]. split; [done|]. split; [done|].
      cbn [process_rows]. unfold bind. rewrite Hrun. by repeat split.
Qed.

(** The two lines printed before the file is opened. *)
Lemma bulk_create_from_csv_start self csv_file (s : St) :
  bulk_create_from_csv self csv_file s
  = try_except
      (reader <- open_csv csv_file ;;
       match reader.1 with
       | None => raise (Exception "'NoneType' object is not iterable")
       | Some fieldnames =>
         (if forallb (fun h => bool_decide (h ∈ fieldnames)) required_headers
          then ret tt
          else
            print ("✗ Error: CSV must have headers: "
                   +:+ str_join ", " (set_iter required_headers)) ;;
            sys_exit 1) ;;
         process_rows self 1 reader.2 []
       end)
      (fun e =>
         match e with
         | FileNotFoundError _ =>
           Some (print ("✗ Error: CSV file not found: " +:+ csv_file) ;; sys_exit 1)
         | ServiceError _ _ | Exception _ =>
           Some (print ("✗ Error reading CSV: " +:+ exn_str e) ;; sys_exit 1)
         | SystemExit _ => None
         end)
      (put_lines [nl +:+ "📄 Processing CSV file: " +:+ csv_file; str_mul "-" 60] s).
Proof.
  unfold bulk_create_from_csv. by rewrite !bind_print, put_lines_app.
Qed.

Lemma required_headers_missing (fieldnames : list string) h :
  h ∈ required_headers -> h ∉ fieldnames ->
  forallb (fun h => bool_decide (h ∈ fieldnames)) required_headers = false.
Proof.
  intros Hh Hn. apply not_true_is_false. intros Hall.
  rewrite forallb_forall in Hall. apply list_elem_of_In, Hall in Hh.
  by apply bool_decide_eq_true in Hh.
Qed.

(** X11. When the CSV file does not exist, [bulk_create_from_csv] prints
    that the file was not found and exits with status 1, without a directory
    call and without touching a file. *)
Theorem bulk_missing_file_exits self csv_file (s : St) :
  State.files s !! csv_file = None ->
  exists s',
    bulk_create_from_csv self csv_file s = (Raise (SystemExit 1), s')
    /\ State.calls s' = State.calls s
    /\ State.files s' = State.files s
    /\ State.stdout s' =
       State.stdout s
       ++ [ nl +:+ "📄 Processing CSV file: " +:+ csv_file; str_mul "-" 60;
            "✗ Error: CSV file not found: " +:+ csv_file ].
Proof.
  intros Hfile. rewrite bulk_create_from_csv_start.
  unfold try_except, bind, open_csv, print, sys_exit, raise.
  cbn [State.files put_lines]. rewrite Hfile.
  eexists. split; [reflexivity|]. cbn. by rewrite <- app_assoc.
Qed.

(** X12. When the CSV file has no header line, or its header lacks one of
    [username], [email], [role], [bulk_create_from_csv] exits with status 1
    before any row is read: no directory call, no clock reading, no file
    touched. *)
Theorem bulk_bad_header_exits self csv_file text (s : St) :
  State.files s !! csv_file = Some text ->
  (csv_read text).1 = None
  \/ (exists fieldnames h,
        (csv_read text).1 = Some fieldnames /\ h ∈ required_headers /\ h ∉ fieldnames) ->
  exists s',
    bulk_create_from_csv self csv_file s = (Raise (SystemExit 1), s')
    /\ State.calls s' = State.calls s
    /\ State.files s' = State.files s
    /\ State.world s' = State.world s.
Proof.
  intros Hfile Hbad. rewrite bulk_create_from_csv_start.
  unfold try_except, bind at 1, open_csv.
  cbn [State.files put_lines]. rewrite Hfile.
  destruct Hbad as [->|(fieldnames & h & -> & Hh & Hn)].
  - unfold raise, bind, print, sys_exit, raise. by eexists.
  - rewrite (required_headers_missing _ _ Hh Hn).
    unfold raise, bind, print, sys_exit, raise. by eexists.
Qed.

(** X13. A row that cannot be read (a required cell or the department or
    description cell is missing) stops the batch: the rows before it are
    provisioned as usual, one outcome each, then the run exits with status 1
    and the outcomes are not returned.  The directory calls made for the
    earlier rows stay made; the rows after it are not attempted. *)
Theorem bulk_unreadable_row_aborts_after_provisioning self csv_file text fieldnames
    good bad rest (s : St) :
  State.files s !! csv_file = Some text ->
  csv_read text = (Some fieldnames, good ++ bad :: rest) ->
  required_headers ⊆ fieldnames ->
  Forall row_ok good ->
  ~ row_ok bad ->
  exists results s1 s',
    process_rows self 1 good []
      (put_lines [nl +:+ "📄 Processing CSV file: " +:+ csv_file; str_mul "-" 60] s)
    = (Ok results, s1)
    /\ Forall2 (outcome_of self) (record_of_row <$> good) results
    /\ bulk_create_from_csv self csv_file s = (Raise (SystemExit 1), s')
    /\ State.calls s' = State.calls s1
    /\ State.world s' = State.world s1
    /\ State.files s' = State.files s.
Proof.
  intros Hfile Hread Hsub Hgood Hbad. rewrite bulk_create_from_csv_start.
  set (s0 := put_lines _ s).
  destruct (process_rows_cases self 1 good [] s0)
    as (new & s1 & _ & _ & Hfiles
        & [(_ & results & Hrun & Hall)|(g & b & r & ? & ? & -> & _ & Hb & _)]).
  2:{ apply Forall_app in Hgood as [_ Hgood]. by apply Forall_cons in Hgood as [? _]. }
  cbn [app] in Hrun.
  destruct (process_row_unreadable self (1 + Z.of_nat (length good)) bad s1 Hbad)
    as [msg Hrow].
  exists results, s1. eexists. split; [done|]. split; [done|].
  unfold try_except, bind at 1, open_csv. subst s0.
  cbn [State.files put_lines] in *. rewrite Hfile, Hread. cbn [fst snd].
  rewrite required_headers_ok by done. unfold bind at 1, ret.
  rewrite (process_rows_app _ _ _ _ _ _ _ _ Hrun). cbn [process_rows].
  unfold bind at 1. rewrite Hrow. unfold bind, print, sys_exit, raise.
  split; [reflexivity|]. by cbn.
Qed.

(** What a run of [bulk_create_from_csv] does, whatever the file is. *)
Lemma bulk_create_from_csv_effect self csv_file (s : St) :
  let rows := from_option (fun text => (csv_read text).2) [] (State.files s !! csv_file) in
  exists r s' new,
    bulk_create_from_csv self csv_file s = (r, s')
    /\ State.files s' = State.files s
    /\ State.calls s' = State.calls s ++ new
    /\ (length new <= 3 * length rows)%nat
    /\ (r = Raise (SystemExit 1)
        \/ exists results,
             r = Ok results /\ Forall2 (outcome_of self) (record_of_row <$> rows) results).
Proof.
  rewrite bulk_create_from_csv_start. set (s0 := put_lines _ s).
  unfold try_except, bind at 1, open_csv. subst s0. cbn [State.files put_lines].
  destruct (State.files s !! csv_file) as [text|] eqn:Hfile; cbn [from_option].
  2:{ unfold bind, print, sys_exit, raise. eexists _, _, []. split; [reflexivity|].
      cbn. rewrite app_nil_r. repeat split; auto. }
  destruct (csv_read text) as [[fieldnames|] rows] eqn:Hread; cbn [fst snd].
  2:{ unfold bind, print, sys_exit, raise. eexists _, _, []. split; [reflexivity|].
      cbn. rewrite app_nil_r. repeat split; auto; lia. }
  destruct (forallb _ required_headers).
  2:{ unfold bind, print, sys_exit, raise. eexists _, _, []. split; [reflexivity|].
      cbn. rewrite app_nil_r. repeat split; auto; lia. }
  unfold bind at 1, ret.
  match goal with |- context [process_rows self 1 rows [] ?st] =>
    destruct (process_rows_cases self 1 rows [] st)
      as (new & s1 & Hcalls & Hlen & Hfiles
          & [(_ & results & -> & Hall)|(? & ? & ? & ? & ? & _ & _ & _ & -> & _)])
  end.
  - eexists _, _, new. split; [reflexivity|]. repeat split; eauto.
  - unfold bind, print, sys_exit, raise. eexists _, _, new. split; [reflexivity|].
    cbn. repeat split; auto.
Qed.

(** X14. [bulk_create_from_csv] ends in one of two ways only: it returns
    one outcome per row of the file, or it exits with status 1; no other
    exception leaves it.  It writes no file and makes at most three
    directory calls per row. *)
Theorem bulk_returns_or_exits self csv_file (s : St) :
  let rows := from_option (fun text => (csv_read text).2) [] (State.files s !! csv_file) in
  exists r s' new,
    bulk_create_from_csv self csv_file s = (r, s')
    /\ (r = Raise (SystemExit 1)
        \/ exists results, r = Ok results /\ length results = length rows)
    /\ State.files s' = State.files s
    /\ State.calls s' = State.calls s ++ new
    /\ (length new <= 3 * length rows)%nat.
Proof.
  intros rows.
  destruct (bulk_create_from_csv_effect self csv_file s)
    as (r & s' & new & Hrun & Hfiles & Hcalls & Hlen & Hres).
  exists r, s', new. split; [done|]. split; [|done].
  destruct Hres as [->|(results & -> & Hall)]; [by left|].
  right. exists results. split; [done|].
  apply Forall2_length in Hall. by rewrite length_fmap in Hall.
Qed.

End Orchestrator.

(** ** The console *)

Section Console.
Context {W : Type} {platform : Platform W}.
Local Abbreviation St := (State.t W).

Ltac directory_answer :=
  cbn [fst snd State.world State.calls State.stdout State.files negb];
  match goal with
  | |- context [client_create_user ?d ?w] =>
      destruct (client_create_user d w) as [[?|?] ?] eqn:?
  | |- context [client_add_user_to_group ?d ?w] =>
      destruct (client_add_user_to_group d w) as [[[]|?] ?] eqn:?
  | |- context [client_update_user_capabilities ?u ?d ?w] =>
      destruct (client_update_user_capabilities u d w) as [[[]|?] ?] eqn:?
  end.

(** What [create_user] prints, next to the calls it makes. *)
Lemma create_user_console self username email role description department (s : St) :
  exists result s' new,
    create_user self username email role description department s = (Ok result, s')
    /\ State.calls s' = State.calls s ++ new
    /\ State.stdout s' =
       State.stdout s
       ++ confirmations username (default "" (Result.group_name result)) new.
Proof.
  unfold create_user, bind, utcnow.
  destruct (clock_utcnow (State.world s)) as [now w1] eqn:Hnow.
  destruct (dict_get ROLE_MAPPINGS role) as [g|] eqn:Hrole.
  2:{ eexists _, _, []. cbn. rewrite !app_nil_r. by repeat split. }
  pose proof (ROLE_MAPPINGS_truthy _ _ Hrole) as Hg.
  destruct g as [|c g]; [done|].
  destruct (dict_in (String c g) (group_cache self)) eqn:Hin; cbn [negb].
  2:{ eexists _, _, []. cbn. rewrite !app_nil_r. by repeat split. }
  unfold dict_in in Hin. apply bool_decide_eq_true in Hin as [gid Hgid].
  unfold with_local, try_except, create_user_try, bind, lift, utcnow, modify_local,
    get_local, identity_create_user, identity_add_user_to_group,
    identity_update_user_capabilities, client_call, print.
  rewrite Hgid.
  cbn [fst snd State.world State.calls State.stdout State.files].
  destruct (clock_utcnow w1) as [today w2] eqn:Htoday.
  repeat directory_answer;
    try match goal with f : fault |- _ => destruct f end; cbn.
  all: eexists _, _, _; rewrite <- ?app_assoc;
    (split; [reflexivity|]); (split; [reflexivity|]);
    unfold confirmations; cbn; by rewrite ?app_nil_r.
Qed.

(** X24. [create_user] prints one confirmation line for each directory
    call that was answered without fault, in the order of the calls, and
    nothing else: a fault is not printed there, it is recorded in the
    outcome.  The number of lines printed is the number of answered
    calls. *)
Theorem create_user_prints_one_line_per_answered_call self username email role
    description department (s : St) :
  exists result s' new,
    create_user self username email role description department s = (Ok result, s')
    /\ State.calls s' = State.calls s ++ new
    /\ State.stdout s' =
       State.stdout s
       ++ confirmations username (default "" (Result.group_name result)) new
    /\ length (State.stdout s')
       = (length (State.stdout s)
          + length (filter (fun ev => event_fault ev = None) new))%nat.
Proof.
  destruct (create_user_console self username email role description department s)
    as (result & s' & new & Hrun & Hcalls & Hout).
  exists result, s', new. do 3 (split; [done|]).
  rewrite Hout, length_app. f_equal.
  destruct (create_user_path self username email role description department s)
    as (result' & s'' & new' & Hrun' & Hcalls' & _ & Hpath).
  rewrite Hrun in Hrun'. injection Hrun' as <- <-.
  rewrite Hcalls in Hcalls'. apply app_inv_head in Hcalls' as <-.
  inversion Hpath; reflexivity.
Qed.

(** One pass of the loop: the announcement, the confirmations, the
    verdict. *)
Lemma process_row_console self idx (row : Row) (s : St) :
  row_ok row ->
  exists result s' new,
    process_row self idx row s = (Ok result, s')
    /\ State.calls s' = State.calls s ++ new
    /\ State.stdout s' = State.stdout s ++ attempt_lines idx (result, new).
Proof.
  intros (Hreq & Hdep & Hdesc).
  destruct (Hreq "username") as [u Hu]; [set_solver|].
  destruct (Hreq "email") as [e He]; [set_solver|].
  destruct (Hreq "role") as [r Hr]; [set_solver|].
  unfold process_row.
  erewrite bind_ok by (by eapply row_item_strip_ok).
  erewrite bind_ok by (by eapply row_item_strip_ok).
  erewrite bind_ok by (by eapply row_item_strip_ok).
  erewrite bind_ok by (by eapply row_get_strip_ok).
  erewrite bind_ok by (by eapply row_get_strip_ok).
  rewrite bind_print.
  match goal with |- context [bind (create_user ?m ?a ?b ?c ?d ?e) _ ?st] =>
    destruct (create_user_console m a b c d e st)
      as (result & s1 & new & Hrun & Hcalls & Hout);
    destruct (create_user_echo _ _ _ _ _ _ _ _ _ Hrun) as (Hname & _ & Hrole & _)
  end.
  erewrite bind_ok by exact Hrun.
  exists result, (put_lines [verdict_line result] s1), new.
  split.
  { unfold verdict_line. by destruct (Result.success result). }
  cbn [put_lines State.calls State.stdout] in *. split; [done|].
  unfold attempt_lines. cbn [fst snd]. rewrite Hout, Hname, Hrole.
  by rewrite <- !app_assoc.
Qed.

(** The loop over full rows. *)
Lemma process_rows_console self idx rows acc (s : St) :
  Forall row_ok rows ->
  exists runs s',
    process_rows self idx rows acc s = (Ok (acc ++ runs.*1), s')
    /\ length runs = length rows
    /\ State.calls s' = State.calls s ++ concat runs.*2
    /\ State.stdout s' = State.stdout s ++ batch_lines idx runs.
Proof.
  intros Hrows. revert idx acc s.
  induction Hrows as [|row rows Hrow Hrows IH]; intros idx acc s; cbn [process_rows].
  - exists [], s. cbn. by rewrite !app_nil_r.
  - destruct (process_row_console self idx row s Hrow)
      as (result & s1 & new & Hrun & Hc1 & Ho1).
    erewrite bind_ok by exact Hrun.
    destruct (IH (idx + 1) (acc ++ [result]) s1) as (runs & s2 & Hrest & Hlen & Hc2 & Ho2).
    exists ((result, new) :: runs), s2. rewrite Hrest, <- app_assoc.
    split; [done|]. split; [by rewrite !length_cons, Hlen|].
    rewrite fmap_cons. cbn [concat batch_lines snd].
    rewrite Hc2, Hc1, Ho2, Ho1, <- !app_assoc. done.
Qed.

(** X25. For a readable CSV file with the required headers and full rows,
    the console output of [bulk_create_from_csv] is the two heading lines
    followed, for each row in order, by the announcement with the number of
    the row counted from 1 and the username and role of its outcome, the
    confirmations of the calls of that attempt, and the verdict of the
    outcome: the identifier on success, the error on failure.  The calls of
    the batch are the calls of the attempts, in order. *)
Theorem bulk_console_follows_the_attempts self csv_file text fieldnames rows (s : St) :
  State.files s !! csv_file = Some text ->
  csv_read text = (Some fieldnames, rows) ->
  required_headers ⊆ fieldnames ->
  Forall row_ok rows ->
  exists runs s',
    bulk_create_from_csv self csv_file s = (Ok runs.*1, s')
    /\ length runs = length rows
    /\ State.calls s' = State.calls s ++ concat runs.*2
    /\ State.stdout s' =
       State.stdout s
       ++ [nl +:+ "📄 Processing CSV file: " +:+ csv_file; str_mul "-" 60]
       ++ batch_lines 1 runs.
Proof.
  intros Hfile Hread Hsub Hrows. rewrite bulk_create_from_csv_start.
  unfold try_except, bind at 1, open_csv.
  cbn [State.files put_lines]. rewrite Hfile, Hread. cbn [fst snd].
  rewrite required_headers_ok by done. unfold bind at 1, ret.
  match goal with |- context [process_rows self 1 rows [] ?st] =>
    destruct (process_rows_console self 1 rows [] st Hrows)
      as (runs & s' & -> & Hlen & Hcalls & Hout)
  end.
  exists runs, s'. split; [done|]. split; [done|].
  cbn [State.calls State.stdout put_lines] in *. split; [done|].
  by rewrite Hout, <- app_assoc.
Qed.

End Console.

(** ** The attempts of a batch, in turn *)

Section InTurn.
Context {W : Type} {platform : Platform W}.
Local Abbreviation St := (State.t W).

(** One pass of the loop on a full row is the attempt on its record,
    between the announcement and the verdict. *)
Lemma process_row_turn self idx (row : Row) (s s1 : St) result :
  row_ok row ->
  create_user self (stripped_field row "username") (stripped_field row "email")
    (stripped_field row "role") (stripped_field row "description")
    (stripped_field row "department")
    (put_lines [progress_line idx (stripped_field row "username")
                  (stripped_field row "role")] s)
  = (Ok result, s1) ->
  process_row self idx row s = (Ok result, put_lines [verdict_line result] s1).
Proof.
  intros (Hreq & Hdep & Hdesc) Hrun.
  destruct (Hreq "username") as [u Hu]; [set_solver|].
  destruct (Hreq "email") as [e He]; [set_solver|].
  destruct (Hreq "role") as [r Hr]; [set_solver|].
  unfold process_row.
  erewrite bind_ok by (by eapply row_item_strip_ok).
  erewrite bind_ok by (by eapply row_item_strip_ok).
  erewrite bind_ok by (by eapply row_item_strip_ok).
  erewrite bind_ok by (by eapply row_get_strip_ok).
  erewrite bind_ok by (by eapply row_get_strip_ok).
  rewrite bind_print. erewrite bind_ok by exact Hrun.
  unfold verdict_line. by destruct (Result.success result).
Qed.

(** The loop over full rows attempts every record, each from the state the
    one before it left. *)
Lemma process_rows_attempted self idx rows acc (s : St) :
  Forall row_ok rows ->
  exists results s',
    process_rows self idx rows acc s = (Ok (acc ++ results), s')
    /\ attempted self idx s (record_of_row <$> rows) results s'.
Proof.
  intros Hrows. revert idx acc s.
  induction Hrows as [|row rows Hrow Hrows IH]; intros idx acc s; cbn [process_rows].
  - exists [], s. rewrite app_nil_r. split; [done | constructor].
  - destruct (create_user_path self (stripped_field row "username")
                (stripped_field row "email") (stripped_field row "role")
                (stripped_field row "description") (stripped_field row "department")
                (put_lines [progress_line idx (stripped_field row "username")
                              (stripped_field row "role")] s))
      as (result & s1 & new & Hrun & _).
    erewrite bind_ok by (by eapply process_row_turn).
    destruct (IH (idx + 1) (acc ++ [result]) (put_lines [verdict_line result] s1))
      as (results & s2 & Hrest & Hchain).
    exists (result :: results), s2. rewrite Hrest, <- app_assoc.
    split; [done|]. rewrite fmap_cons. by econstructor.
Qed.

(** The calls of a chain of attempts are made one attempt after the other:
    the calls of the batch are those of the first attempt followed by those
    of the rest. *)
Lemma attempted_calls self idx (s s' : St) recs results :
  attempted self idx s recs results s' ->
  exists runs : list (list Event),
    length runs = length recs
    /\ length results = length recs
    /\ State.calls s' = State.calls s ++ concat runs
    /\ Forall (fun new => (length new <= 3)%nat) runs.
Proof.
  induction 1 as [idx s|idx s rec recs result results s1 s2 Hrun _ IH].
  - exists []. by rewrite app_nil_r.
  - destruct IH as (runs & Hlen & Hres & Hcalls & Hall).
    match type of Hrun with create_user ?m ?a ?b ?c ?d ?e ?st = _ =>
      destruct (create_user_effect m a b c d e st) as (r' & s1' & new & Hrun' & _ & Hc & Hl)
    end.
    rewrite Hrun in Hrun'. injection Hrun' as <- <-.
    exists (new :: runs). cbn [length concat].
    split; [by rewrite Hlen|]. split; [by rewrite Hres|].
    split; [|by constructor].
    rewrite Hcalls. cbn [put_lines State.calls] in *. by rewrite Hc, <- app_assoc.
Qed.

(** X26. For a CSV file whose header has the required fields and whose
    rows are full, [bulk_create_from_csv] attempts every record, in input
    order, each in the state that the attempt before it left, whatever the
    outcome of that attempt was, and returns one outcome per record in the
    same order: the outcome at each position echoes the record at that
    position and is what the attempt on it returned. The detail report of
    [generate_report] is written from that list, in that order. *)
Theorem bulk_create_one_outcome_per_record self csv_file text fieldnames rows (s : St) :
  State.files s !! csv_file = Some text ->
  csv_read text = (Some fieldnames, rows) ->
  required_headers ⊆ fieldnames ->
  Forall row_ok rows ->
  exists results s',
    bulk_create_from_csv self csv_file s = (Ok results, s')
    /\ length results = length (record_of_row <$> rows)
    /\ Forall2 (outcome_of self) (record_of_row <$> rows) results
    /\ (forall i rec, (record_of_row <$> rows) !! i = Some rec ->
          exists result, results !! i = Some result /\ echoes rec result)
    /\ (forall path (s0 : St),
          path <> "" -> open_w_error path (State.world s0) = None ->
          exists s1,
            write_detail_report results (Some path) s0 = (Ok tt, s1)
            /\ State.files s1 !! path = Some (csv_write report_fieldnames results))
    /\ (forall path (s0 : St),
          path <> "" -> open_w_error path (State.world s0) = None ->
          audit_file_of (Some path) <> path ->
          exists s2,
            generate_report results (Some path) s0 = (Ok tt, s2)
            /\ State.files s2 !! path = Some (csv_write report_fieldnames results))
    /\ attempted self 1
         (put_lines [nl +:+ "📄 Processing CSV file: " +:+ csv_file; str_mul "-" 60] s)
         (record_of_row <$> rows) results s'
    /\ (exists runs : list (list Event),
          length runs = length rows
          /\ State.calls s' = State.calls s ++ concat runs
          /\ Forall (fun new => (length new <= 3)%nat) runs).
Proof.
  intros Hfile Hread Hsub Hrows.
  destruct (bulk_create_from_csv_run self csv_file text fieldnames rows s)
    as (results & s' & Hrun & Hall); [done..|].
  assert (attempted self 1
            (put_lines [nl +:+ "📄 Processing CSV file: " +:+ csv_file; str_mul "-" 60] s)
            (record_of_row <$> rows) results s') as Hchain.
  { revert Hrun. rewrite bulk_create_from_csv_start.
    unfold try_except, bind at 1, open_csv.
    cbn [State.files put_lines]. rewrite Hfile, Hread. cbn [fst snd].
    rewrite required_headers_ok by done. unfold bind at 1, ret.
    match goal with |- context [process_rows self 1 rows [] ?st] =>
      destruct (process_rows_attempted self 1 rows [] st Hrows)
        as (results' & s'' & -> & Hchain)
    end.
    intros [= <- <-]. exact Hchain. }
  exists results, s'. split; [done|].
  split; [symmetry; by eapply Forall2_length|]. split; [done|].
  split; [|split; [|split; [|split]]]; [| | |exact Hchain|];
    [| | |destruct (attempted_calls _ _ _ _ _ _ Hchain)
            as (runs & Hlen & _ & Hcalls & Hall3);
          exists runs; rewrite length_fmap in Hlen; by cbn [put_lines State.calls] in Hcalls].
  - intros i rec Hi.
    destruct (Forall2_lookup_l _ _ _ _ _ Hall Hi) as (result & Hres & Hecho & _).
    by exists result.
  - intros path s0 Hne Hopen.
    destruct (write_detail_report_cases results (Some path) s0) as (s1 & Hd & _ & _ & Hf).
    exists s1. split; [done|]. rewrite Hf, decide_False, Hopen by done.
    apply lookup_insert_eq.
  - intros path s0 Hne Hopen Haudit.
    destruct (generate_report_run results (Some path) s0)
      as (lines & s1 & s2 & Hd & Ha & Hgen).
    exists s2. split; [done|].
    destruct (write_detail_report_cases results (Some path) (put_lines lines s0))
      as (s1' & Hd' & _ & _ & Hf1).
    rewrite Hd in Hd'. injection Hd' as <-.
    destruct (write_audit_log_cases results (Some path) s1) as (s2' & Ha' & _ & Hf2).
    rewrite Ha in Ha'. injection Ha' as <-.
    rewrite decide_False in Hf1 by done. cbn in Hf1. rewrite Hopen in Hf1.
    rewrite Hf2, Hf1.
    destruct (open_w_error (audit_file_of (Some path)) (State.world s1)).
    + apply lookup_insert_eq.
    + rewrite lookup_insert_ne by done. apply lookup_insert_eq.
Qed.

End InTurn.

(** ** More on the report aggregator *)

Lemma startswith_app p s x : startswith p s = true -> startswith p (s +:+ x) = true.
Proof.
  rewrite !startswith_spec. intros [b ->]. exists (b +:+ x). apply app_assoc_str.
Qed.

(** An occurrence has a first one. *)
Lemma occurs_first sub s :
  sub <> "" -> occurs sub s ->
  exists a b, s = a +:+ sub +:+ b /\ ~ occurs sub a.
Proof.
  intros Hsub. induction s as [|c s IH]; intros Hocc.
  - by apply occurs_empty in Hocc.
  - destruct (startswith sub (String c s)) eqn:Hstart.
    + apply startswith_spec in Hstart as [b ->]. exists "", b.
      split; [done|]. by rewrite occurs_empty.
    + apply occurs_cons in Hocc as [Hocc|Hocc]; [congruence|].
      destruct (IH Hocc) as (a & b & -> & Hno). exists (String c a), b.
      split; [done|]. rewrite occurs_cons. intros [Hs|Ho]; [|done].
      apply (startswith_app _ _ (sub +:+ b)) in Hs. rewrite app_cons in Hs. congruence.
Qed.

(** A path that contains [".csv"] is changed by the replacement. *)
Lemma replace_csv_changes path :
  occurs ".csv" path -> replace ".csv" "_audit.json" path <> path.
Proof.
  intros (a & b & -> & Hno)%occurs_first; [|done].
  rewrite replace_csv_first by done. intros Heq%(inj (String.app a)). discriminate.
Qed.

Section Aggregator.
Context {W : Type} {platform : Platform W}.
Local Abbreviation St := (State.t W).

(** What [generate_report] does to the state, in terms of the two opens. *)
Lemma generate_report_effect results output (s : St) :
  exists s',
    generate_report results output s = (Ok tt, s')
    /\ State.calls s' = State.calls s
    /\ State.files s' =
       let files1 :=
         match output with
         | Some path =>
           if decide (path = "") then State.files s
           else match open_w_error path (State.world s) with
                | None => <[path := csv_write report_fieldnames results]> (State.files s)
                | Some _ => State.files s
                end
         | None => State.files s
         end in
       match open_w_error (audit_file_of output) (State.world s) with
       | None =>
         <[audit_file_of output :=
             json_dump (audit_doc results (first_reading (State.world s)))]> files1
       | Some _ => files1
       end.
Proof.
  destruct (generate_report_run results output s) as (lines & s1 & s2 & Hd & Ha & Hgen).
  exists s2. split; [done|].
  destruct (write_detail_report_cases results output (put_lines lines s))
    as (s1' & Hd' & Hw1 & Hc1 & Hf1).
  rewrite Hd in Hd'. injection Hd' as <-.
  destruct (write_audit_log_cases results output s1) as (s2' & Ha' & Hc2 & Hf2).
  rewrite Ha in Ha'. injection Ha' as <-.
  cbn [put_lines State.world State.calls State.files] in *.
  split; [congruence|]. by rewrite Hf2, Hw1, Hf1.
Qed.

(** The files that are neither the report nor the audit log are left as
    they are. *)
Lemma generate_report_elsewhere results output (s s' : St) p :
  generate_report results output s = (Ok tt, s') ->
  output <> Some p -> p <> audit_file_of output ->
  State.files s' !! p = State.files s !! p.
Proof.
  destruct (generate_report_effect results output s) as (s'' & -> & _ & Hfiles).
  intros [= <-] Hp Ha. rewrite Hfiles. cbn zeta.
  assert (forall m : gmap string string,
            match open_w_error (audit_file_of output) (State.world s) with
            | Some _ => m
            | None => <[audit_file_of output :=
                json_dump (audit_doc results (first_reading (State.world s)))]> m
            end !! p = m !! p) as ->.
  { intros m. destruct (open_w_error _ _); [done|]. by rewrite lookup_insert_ne. }
  destruct output as [path|]; [|done]. case_decide; [done|].
  destruct (open_w_error path (State.world s)); [done|].
  rewrite lookup_insert_ne; [done | congruence].
Qed.

(** X15. [generate_report] always completes, whatever the outcomes and
    whatever happens when the files are opened; it makes no directory call
    and leaves every file other than the report and the audit log as it
    was. *)
Theorem generate_report_touches_two_files results output (s : St) :
  exists s',
    generate_report results output s = (Ok tt, s')
    /\ State.calls s' = State.calls s
    /\ (forall p, output <> Some p -> p <> audit_file_of output ->
          State.files s' !! p = State.files s !! p).
Proof.
  destruct (generate_report_effect results output s) as (s' & Hgen & Hcalls & _).
  exists s'. do 2 (split; [done|]). intros p Hp Ha.
  by apply (generate_report_elsewhere results output s).
Qed.

(** X16. Without a report path ([None] or the empty string) the only file
    [generate_report] writes is [audit.json], which holds the audit
    document. *)
Theorem generate_report_without_path results output (s : St) :
  output = None \/ output = Some "" ->
  open_w_error "audit.json" (State.world s) = None ->
  exists s',
    generate_report results output s = (Ok tt, s')
    /\ State.files s' =
       <["audit.json" := json_dump (audit_doc results (first_reading (State.world s)))]>
         (State.files s).
Proof.
  intros Hout Hopen.
  destruct (generate_report_effect results output s) as (s' & Hgen & _ & Hfiles).
  exists s'. split; [done|]. rewrite Hfiles.
  destruct Hout as [-> | ->]; cbn; by rewrite Hopen.
Qed.

(** X17. With a report path that contains [.csv], the audit log is a file
    other than the report; when both can be opened, after [generate_report]
    the report holds the CSV of the outcomes and the audit log holds the
    audit document. *)
Theorem generate_report_keeps_csv_report results path (s : St) :
  occurs ".csv" path ->
  open_w_error path (State.world s) = None ->
  open_w_error (audit_file_of (Some path)) (State.world s) = None ->
  exists s',
    generate_report results (Some path) s = (Ok tt, s')
    /\ audit_file_of (Some path) <> path
    /\ State.files s' !! path = Some (csv_write report_fieldnames results)
    /\ State.files s' !! audit_file_of (Some path)
       = Some (json_dump (audit_doc results (first_reading (State.world s)))).
Proof.
  intros Hocc Hopen Haudit.
  assert (path <> "") as Hne.
  { intros ->. by apply occurs_empty in Hocc. }
  assert (audit_file_of (Some path) <> path) as Hdiff.
  { destruct path as [|c path]; [done|]. by apply replace_csv_changes. }
  destruct (generate_report_effect results (Some path) s) as (s' & Hgen & _ & Hfiles).
  exists s'. do 2 (split; [done|]). rewrite Hfiles. cbn zeta.
  rewrite decide_False, Hopen, Haudit by done.
  split; [|apply lookup_insert_eq].
  rewrite lookup_insert_ne by done. apply lookup_insert_eq.
Qed.

(** X18. When the report cannot be opened, [generate_report] prints the
    error and goes on: the audit log is still written, and it is the only
    file that changes. *)
Theorem generate_report_survives_report_failure results path msg (s : St) :
  path <> "" ->
  open_w_error path (State.world s) = Some msg ->
  open_w_error (audit_file_of (Some path)) (State.world s) = None ->
  exists s',
    generate_report results (Some path) s = (Ok tt, s')
    /\ State.files s' =
       <[audit_file_of (Some path) :=
           json_dump (audit_doc results (first_reading (State.world s)))]> (State.files s)
    /\ "✗ Error writing report: " +:+ msg ∈ State.stdout s'.
Proof.
  intros Hne Hopen Haudit.
  destruct (generate_report_effect results (Some path) s) as (s' & Hgen & _ & Hfiles).
  exists s'. split; [done|]. split.
  { rewrite Hfiles. cbn zeta. by rewrite decide_False, Hopen, Haudit by done. }
  destruct (generate_report_prefix results (Some path) s) as [summary Hpre].
  rewrite Hpre in Hgen. revert Hgen.
  unfold bind at 1, write_detail_report. rewrite (proj2 (str_bool_true path) Hne).
  unfold try_except, bind at 1, open_w. cbn [put_lines State.world]. rewrite Hopen.
  unfold except_print, is_Exception, print at 1.
  cbn [exn_str State.world State.calls State.stdout State.files].
  intros Hlog. apply write_audit_log_stdout in Hlog as [lines ->].
  cbn [State.stdout]. rewrite !elem_of_app. left. right. apply list_elem_of_here.
Qed.

End Aggregator.

(** X19. The counts of the summary: [successful] is the number of
    successful outcomes and [failed], computed as the difference, is the
    number of failed ones; both lie between 0 and the total, and both add up
    over the concatenation of two batches. *)
Theorem summary_counts (results : list Result.t) :
  successful results
  = Z.of_nat (length (filter (fun r => Result.success r = true) results))
  /\ failed results = Z.of_nat (length (failures results))
  /\ 0 <= successful results <= total results
  /\ 0 <= failed results <= total results
  /\ (forall more, successful (results ++ more) = successful results + successful more)
  /\ (forall more, failed (results ++ more) = failed results + failed more).
Proof.
  pose proof (failures_length results) as Hf.
  pose proof (successful_bounds results) as Hb.
  split; [apply successful_length|]. split; [unfold failed; lia|].
  split; [done|]. split; [unfold failed; lia|].
  assert (forall more, successful (results ++ more) = successful results + successful more)
    as Happ.
  { intros more. rewrite !successful_length, filter_app, length_app. lia. }
  split; [done|]. intros more. unfold failed, total. rewrite Happ, length_app. lia.
Qed.

(** ** The resolver and the engine together; the fields of a record *)

Section Together.
Context {W : Type} {platform : Platform W}.
Local Abbreviation St := (State.t W).

(** X10. With the cache that [_load_groups] builds from a listing,
    [create_user] for a role of the registry reaches the creation call
    exactly when the group of the role was listed, and makes no call
    otherwise; a binding uses the identifier of the last listed group of
    that name, and accounts are created in the tenancy that was listed. *)
Theorem loaded_cache_decides_group_check tenancy groups w (s0 : St) :
  client_list_groups tenancy (State.world s0) = (inl groups, w) ->
  exists cache s1,
    _load_groups tenancy s0 = (Ok cache, s1)
    /\ forall username email role description department g (s : St) new,
         dict_get ROLE_MAPPINGS role = Some g ->
         State.calls
           (create_user {| tenancy_id := tenancy; group_cache := cache |}
              username email role description department s).2
         = State.calls s ++ new ->
         (g ∈ Group.name <$> groups <-> exists spec r rest, new = EvCreateUser spec r :: rest)
         /\ (g ∉ Group.name <$> groups -> new = [])
         /\ (forall binding r,
               EvAddUserToGroup binding r ∈ new ->
               last_id g groups = Some (AddUserToGroupDetails.group_id binding))
         /\ (forall spec r,
               EvCreateUser spec r ∈ new ->
               CreateUserDetails.compartment_id spec = tenancy).
Proof.
  intros Hlist.
  pose proof (load_groups_listed tenancy groups w s0 Hlist) as Hload. cbn zeta in Hload.
  pose proof (cache_lookup groups) as Hget. pose proof (cache_member groups) as Hin.
  set (cache := foldl cache_step [] groups) in *.
  eexists cache, _. split; [exact Hload|].
  intros username email role description department g s new Hrole Hcalls.
  set (self := {| tenancy_id := tenancy; group_cache := cache |}) in *.
  pose proof (create_user_reaches_creation self _ _ _ _ _ _ _ Hcalls) as Hreach.
  assert (g ∈ Group.name <$> groups
          <-> exists spec r rest, new = EvCreateUser spec r :: rest) as Hiff.
  { rewrite <- Hreach, <- Hin. unfold dict_in. rewrite bool_decide_eq_true. split.
    - intros [gid Hgid]. by exists g, gid.
    - intros (g' & gid & Hg' & Hgid). exists gid. cbn in Hgid. congruence. }
  split; [done|]. split; [|split].
  - intros Hn. destruct (create_user_run_path _ _ _ _ _ _ _ _ Hcalls) as (result & _ & Hpath).
    inversion Hpath; subst; try done; destruct Hn; apply Hiff; by eexists _, _, _.
  - intros binding r Hb.
    destruct (create_user_run_path _ _ _ _ _ _ _ _ Hcalls) as (result & _ & Hpath).
    rewrite <- Hget.
    inversion Hpath; subst;
      repeat match goal with
      | H : _ ∈ [] |- _ => by apply elem_of_nil in H
      | H : _ ∈ _ :: _ |- _ => apply elem_of_cons in H as [H|H]; simplify_eq
      end; cbn in *; congruence.
  - intros spec r Hspec.
    by rewrite (create_user_details self _ _ _ _ _ _ _ _ _ Hcalls Hspec).
Qed.

Lemma stripped_field_trimmed (row : Row) key cell :
  row !! key = Some (Some cell) -> trimmed_of cell (stripped_field row key).
Proof.
  intros Hcell. unfold stripped_field. rewrite Hcell. cbn [default].
  apply strip_trimmed_of.
Qed.

(** X23. The outcomes of a batch carry the cells of the rows without
    their surrounding whitespace: the username, the email, the role and the
    department of an outcome are the corresponding cells with a run of
    whitespace characters (those of [str.isspace], ASCII or not) taken off
    each end and nothing else changed, and they neither start nor end with
    a whitespace character; a row without department column gives the empty
    department. *)
Theorem bulk_outcomes_carry_trimmed_fields self csv_file text fieldnames rows (s : St) :
  State.files s !! csv_file = Some text ->
  csv_read text = (Some fieldnames, rows) ->
  required_headers ⊆ fieldnames ->
  Forall row_ok rows ->
  exists results s',
    bulk_create_from_csv self csv_file s = (Ok results, s')
    /\ Forall2
         (fun (row : Row) result =>
            (forall cell, row !! "username" = Some (Some cell) ->
                          trimmed_of cell (Result.username result))
            /\ (forall cell, row !! "email" = Some (Some cell) ->
                             trimmed_of cell (Result.email result))
            /\ (forall cell, row !! "role" = Some (Some cell) ->
                             trimmed_of cell (Result.role result))
            /\ (forall cell, row !! "department" = Some (Some cell) ->
                             trimmed_of cell (Result.department result))
            /\ (row !! "department" = None -> Result.department result = ""))
         rows results.
Proof.
  intros Hfile Hread Hsub Hrows.
  destruct (bulk_create_from_csv_run self csv_file text fieldnames rows s)
    as (results & s' & Hrun & Hall); [done..|].
  exists results, s'. split; [done|].
  rewrite Forall2_fmap_l in Hall. eapply Forall2_impl; [exact Hall|].
  intros row result ((Hu & He & Hr & Hd) & _). cbn in Hu, He, Hr, Hd.
  rewrite Hu, He, Hr, Hd.
  split; [|split; [|split; [|split]]];
    try (intros cell Hcell; by apply stripped_field_trimmed).
  intros Hnone. unfold stripped_field. by rewrite Hnone.
Qed.

End Together.

(** ** Start-up and the command *)

Section Main.
Context {W : Type} {platform : Platform W} {startup : Startup W}.
Local Abbreviation St := (State.t W).

(** The state in which the groups are loaded, when the configuration is
    read and the client is built. *)
Lemma init_reaches_load_groups config_file profile config tenancy w1 w2 (s : St) :
  config_from_file config_file profile (State.world s) = (inl config, w1) ->
  identity_client_new config w1 = (inl tt, w2) ->
  dict_get config "tenancy" = Some tenancy ->
  __init__ config_file profile s
  = bind (_load_groups tenancy)
         (fun cache => ret {| tenancy_id := tenancy; group_cache := cache |})
         (State.mk w2 (State.calls s)
            (State.stdout s ++ ["🏥 Healthcare IAM User Manager"; str_mul "=" 60])
            (State.files s)).
Proof.
  intros Hconfig Hclient Htenancy.
  unfold __init__. rewrite !bind_print, put_lines_app.
  unfold bind at 1, startup_call. cbn [put_lines State.world]. rewrite Hconfig.
  unfold bind at 1, startup_call. cbn [State.world]. rewrite Hclient.
  unfold bind at 1, config_item. rewrite Htenancy. reflexivity.
Qed.

(** X20. When the configuration is read and the client is built but the
    listing of the groups fails, [main] exits with status 1 after that one
    call: no file is written, no user is provisioned. *)
Theorem main_exits_when_groups_cannot_be_loaded args config tenancy w1 w2 w3 f (s : St) :
  config_from_file "./config" (Args.profile args) (State.world s) = (inl config, w1) ->
  identity_client_new config w1 = (inl tt, w2) ->
  dict_get config "tenancy" = Some tenancy ->
  client_list_groups tenancy w2 = (inr f, w3) ->
  exists s',
    main args s = (Raise (SystemExit 1), s')
    /\ State.calls s' = State.calls s ++ [EvListGroups tenancy (inr f)]
    /\ State.files s' = State.files s.
Proof.
  intros Hconfig Hclient Htenancy Hlist.
  unfold main, bind at 1. rewrite (init_reaches_load_groups _ _ _ _ _ _ _ Hconfig Hclient Htenancy).
  match goal with |- context [bind (_load_groups tenancy) _ ?st] =>
    pose proof (load_groups_refused tenancy f w3 st Hlist) as Hload
  end.
  unfold bind at 1. rewrite Hload. by eexists.
Qed.

(** X21. A failure of the configuration reader, of the construction of the
    client, or a configuration without [tenancy] is not caught: [main] ends
    with that exception (not an exit status), before any directory call and
    without touching a file. *)
Theorem main_startup_failure_is_not_caught args (s : St) :
  (exists f w1,
     config_from_file "./config" (Args.profile args) (State.world s) = (inr f, w1))
  \/ (exists config w1 f w2,
        config_from_file "./config" (Args.profile args) (State.world s) = (inl config, w1)
        /\ identity_client_new config w1 = (inr f, w2))
  \/ (exists config w1 w2,
        config_from_file "./config" (Args.profile args) (State.world s) = (inl config, w1)
        /\ identity_client_new config w1 = (inl tt, w2)
        /\ dict_get config "tenancy" = None) ->
  exists e s',
    main args s = (Raise e, s')
    /\ is_Exception e = true
    /\ State.calls s' = State.calls s
    /\ State.files s' = State.files s.
Proof.
  intros Hfail. unfold main, bind at 1, __init__. rewrite !bind_print, put_lines_app.
  unfold bind at 1, startup_call. cbn [put_lines State.world].
  destruct Hfail as [(f & w1 & ->)|[(config & w1 & f & w2 & -> & Hclient)
                                   |(config & w1 & w2 & -> & Hclient & Htenancy)]].
  - destruct f; by eexists _, _.
  - unfold bind at 1, startup_call. cbn [State.world]. rewrite Hclient.
    destruct f; by eexists _, _.
  - unfold bind at 1, startup_call. cbn [State.world]. rewrite Hclient.
    unfold bind at 1, config_item. rewrite Htenancy. by eexists _, _.
Qed.

(** X22. When start-up succeeds and the CSV file is readable with the
    required headers and full rows, [main] completes whatever the outcome of
    each record: after the listing it makes at most three directory calls
    per row, changes no file other than the report and the audit log, and
    its last six lines are the closing message and the next steps. *)
Theorem main_completes_whatever_the_outcomes args config tenancy groups w1 w2 w3 text
    fieldnames rows (s : St) :
  config_from_file "./config" (Args.profile args) (State.world s) = (inl config, w1) ->
  identity_client_new config w1 = (inl tt, w2) ->
  dict_get config "tenancy" = Some tenancy ->
  client_list_groups tenancy w2 = (inl groups, w3) ->
  State.files s !! Args.csv args = Some text ->
  csv_read text = (Some fieldnames, rows) ->
  required_headers ⊆ fieldnames ->
  Forall row_ok rows ->
  exists s' new before,
    main args s = (Ok tt, s')
    /\ State.calls s' = State.calls s ++ EvListGroups tenancy (inl groups) :: new
    /\ (length new <= 3 * length rows)%nat
    /\ (forall p, p <> Args.report args -> p <> audit_file_of (Some (Args.report args)) ->
          State.files s' !! p = State.files s !! p)
    /\ State.stdout s' =
       before ++ [ nl +:+ "✅ Bulk onboarding complete!"; nl +:+ "Next Steps:";
                   "1. Users will receive password reset emails";
                   "2. Users must configure MFA on first login";
                   "3. Users can access via AWS IAM Identity Center SSO";
                   "4. Review the audit log for compliance records" ].
Proof.
  intros Hconfig Hclient Htenancy Hlist Hfile Hread Hsub Hrows.
  unfold main, bind at 1.
  rewrite (init_reaches_load_groups _ _ _ _ _ _ _ Hconfig Hclient Htenancy).
  match goal with |- context [bind (_load_groups tenancy) _ ?st] =>
    pose proof (load_groups_listed tenancy groups w3 st Hlist) as Hload
  end.
  cbn zeta in Hload. unfold bind at 1. rewrite Hload. unfold ret.
  set (manager := {| tenancy_id := tenancy; group_cache := _ |}).
  match goal with |- context [bind (bulk_create_from_csv manager _) _ ?st] =>
    set (s1 := st);
    assert (State.calls s1 = State.calls s ++ [EvListGroups tenancy (inl groups)]) as Hc1
      by reflexivity;
    assert (State.files s1 = State.files s) as Hf1 by reflexivity
  end.
  destruct (bulk_create_from_csv_effect manager (Args.csv args) s1)
    as (r & s2 & new & Hbulk & Hf2 & Hc2 & Hlen & _).
  destruct (bulk_create_from_csv_run manager (Args.csv args) text fieldnames rows s1)
    as (results & s2' & Hbulk' & _); [congruence | done..|].
  rewrite Hbulk in Hbulk'. injection Hbulk' as -> <-.
  rewrite Hf1, Hfile in Hlen. cbn [from_option] in Hlen. rewrite Hread in Hlen.
  cbn [snd] in Hlen.
  unfold bind at 1. rewrite Hbulk.
  destruct (generate_report_effect results (Some (Args.report args)) s2)
    as (s3 & Hgen & Hc3 & _).
  pose proof (fun p => generate_report_elsewhere _ _ _ _ p Hgen) as Hf3.
  unfold bind at 1. rewrite Hgen. rewrite !bind_print, print_run, !put_lines_app.
  eexists _, new, _. split; [reflexivity|]. cbn [put_lines State.calls State.files State.stdout].
  split; [by rewrite Hc3, Hc2, Hc1, <- app_assoc|]. split; [done|].
  split; [|reflexivity].
  intros p Hp Ha. rewrite (Hf3 p), Hf2, Hf1; [done | congruence | done].
Qed.

End Main.

(** ** More runs on the simulated platform *)

Lemma create_user_capabilities_console_only_witness :
  UpdateUserCapabilitiesDetails.can_use_api_keys console_only = false
  /\ exists spec, EvCreateUser spec (inl "ocid1.user.oc1..alice")
                  ∈ [Sim.alice_created; Desk.alice_bound; Desk.alice_capabilities (inl tt)].
Proof.
  destruct (create_user_capabilities_console_only Sim.manager "alice" "a@h.org"
              "ClinicalAdmin" "" "Cardiology" (Sim.start Sim.calm)
              [Sim.alice_created; Desk.alice_bound; Desk.alice_capabilities (inl tt)]
              "ocid1.user.oc1..alice" console_only (inl tt))
    as (_ & Hkeys & Hspec & _).
  - vm_compute. reflexivity.
  - apply list_elem_of_further, list_elem_of_further, list_elem_of_here.
  - split; [exact Hkeys | exact Hspec].
Defined.

Lemma create_user_binds_registry_group_witness :
  exists g spec,
    dict_get ROLE_MAPPINGS "ClinicalAdmin" = Some g
    /\ dict_get (group_cache Sim.manager) g = Some "ocid1.group.oc1..clinical"
    /\ EvCreateUser spec (inl "ocid1.user.oc1..alice")
       ∈ [Sim.alice_created; Desk.alice_bound; Desk.alice_capabilities (inl tt)].
Proof.
  apply (create_user_binds_registry_group Sim.manager "alice" "a@h.org"
           "ClinicalAdmin" "" "Cardiology" (Sim.start Sim.calm)
           [Sim.alice_created; Desk.alice_bound; Desk.alice_capabilities (inl tt)]
           Sim.alice_binding (inl tt)).
  - vm_compute. reflexivity.
  - apply list_elem_of_further, list_elem_of_here.
Defined.

Lemma create_user_capability_failure_keeps_membership_witness :
  exists result,
    (create_user Sim.manager "alice" "a@h.org" "ClinicalAdmin" "" "Cardiology"
       (Sim.start Desk.capabilities_down)).1 = Ok result
    /\ Result.success result = false
    /\ Result.user_ocid result = Some "ocid1.user.oc1..alice".
Proof.
  destruct (create_user_capability_failure_keeps_membership Sim.manager "alice" "a@h.org"
              "ClinicalAdmin" "" "Cardiology" (Sim.start Desk.capabilities_down)
              [Sim.alice_created; Desk.alice_bound; Desk.alice_capabilities (inr Sim.locked)]
              "ocid1.user.oc1..alice" console_only Sim.locked)
    as (result & Hrun & Hs & Hid & _).
  - vm_compute. reflexivity.
  - apply list_elem_of_further, list_elem_of_further, list_elem_of_here.
  - exists result. split; [exact Hrun|]. split; [exact Hs | exact Hid].
Defined.

Lemma create_user_creation_failure_witness :
  exists result,
    (create_user Sim.manager "alice" "a@h.org" "ClinicalAdmin" "" "Cardiology"
       (Sim.start Desk.creation_down)).1 = Ok result
    /\ Result.user_ocid result = None
    /\ Result.error result = Some "Unexpected error: connection reset".
Proof.
  destruct (create_user_creation_failure Sim.manager "alice" "a@h.org"
              "ClinicalAdmin" "" "Cardiology" (Sim.start Desk.creation_down)
              [EvCreateUser Sim.alice_details (inr (OtherFault "connection reset"))]
              Sim.alice_details (OtherFault "connection reset"))
    as (result & Hrun & _ & Hid & _ & He & _).
  - vm_compute. reflexivity.
  - apply list_elem_of_here.
  - exists result. split; [exact Hrun|]. split; [exact Hid | exact He].
Defined.

Lemma load_groups_caches_last_listed_witness :
  exists cache s',
    _load_groups "ocid1.tenancy.oc1..hospital" (Sim.start Desk.twice) = (Ok cache, s')
    /\ dict_get cache "HC-Data-Analysts" = Some "ocid1.group.oc1..new"
    /\ length cache = 2%nat.
Proof.
  destruct (load_groups_caches_last_listed "ocid1.tenancy.oc1..hospital"
              Desk.listing_twice Desk.twice (Sim.start Desk.twice))
    as (cache & s' & Hrun & Hget & _ & _ & Hlen & _).
  - reflexivity.
  - exists cache, s'. split; [exact Hrun|]. split; [|exact Hlen].
    rewrite Hget. reflexivity.
Defined.

Lemma load_groups_failure_exits_witness :
  exists s',
    _load_groups "ocid1.tenancy.oc1..hospital" (Sim.start Desk.listing_down)
    = (Raise (SystemExit 1), s')
    /\ State.files s' = State.files (Sim.start Desk.listing_down).
Proof.
  destruct (load_groups_failure_exits "ocid1.tenancy.oc1..hospital" Desk.refused
              Desk.listing_down (Sim.start Desk.listing_down))
    as (s' & Hrun & _ & Hfiles & _).
  - reflexivity.
  - exists s'. split; [exact Hrun | exact Hfiles].
Defined.

Lemma loaded_cache_decides_group_check_witness :
  exists cache s1,
    _load_groups "ocid1.tenancy.oc1..hospital" (Sim.start Desk.twice) = (Ok cache, s1)
    /\ forall s new,
         State.calls
           (create_user {| tenancy_id := "ocid1.tenancy.oc1..hospital";
                           group_cache := cache |}
              "alice" "a@h.org" "ClinicalAdmin" "" "Cardiology" s).2
         = State.calls s ++ new ->
         new = [].
Proof.
  destruct (loaded_cache_decides_group_check "ocid1.tenancy.oc1..hospital"
              Desk.listing_twice Desk.twice (Sim.start Desk.twice))
    as (cache & s1 & Hrun & Hall).
  - reflexivity.
  - exists cache, s1. split; [exact Hrun|]. intros s new Hcalls.
    destruct (Hall "alice" "a@h.org" "ClinicalAdmin" "" "Cardiology"
                "HC-Clinical-App-Admins" s new eq_refl Hcalls) as (_ & Hnone & _).
    apply Hnone. intros Hin. vm_compute in Hin.
    repeat (apply elem_of_cons in Hin as [Hin|Hin]; [discriminate|]).
    by apply elem_of_nil in Hin.
Defined.

Lemma bulk_missing_file_exits_witness :
  exists s',
    bulk_create_from_csv Sim.manager "nowhere.csv" (Desk.desk Sim.calm)
    = (Raise (SystemExit 1), s')
    /\ State.calls s' = [].
Proof.
  destruct (bulk_missing_file_exits Sim.manager "nowhere.csv" (Desk.desk Sim.calm))
    as (s' & Hrun & Hcalls & _).
  - vm_compute. reflexivity.
  - exists s'. split; [exact Hrun | exact Hcalls].
Defined.

Lemma bulk_bad_header_exits_witness :
  exists s',
    bulk_create_from_csv Sim.manager "headless.csv" (Desk.desk Sim.calm)
    = (Raise (SystemExit 1), s')
    /\ State.calls s' = [].
Proof.
  destruct (bulk_bad_header_exits Sim.manager "headless.csv" Desk.headless_csv
              (Desk.desk Sim.calm))
    as (s' & Hrun & Hcalls & _).
  - vm_compute. reflexivity.
  - right. exists ["username"; "role"], "email". split; [vm_compute; reflexivity|].
    split; [apply list_elem_of_further, list_elem_of_here|].
    intros Hin.
    repeat (apply elem_of_cons in Hin as [Hin|Hin]; [discriminate|]).
    by apply elem_of_nil in Hin.
  - exists s'. split; [exact Hrun | exact Hcalls].
Defined.

Lemma bulk_unreadable_row_aborts_after_provisioning_witness :
  exists s',
    bulk_create_from_csv Sim.manager "short.csv" (Desk.desk Sim.calm)
    = (Raise (SystemExit 1), s')
    /\ length (State.calls s') = 3%nat.
Proof.
  destruct (bulk_unreadable_row_aborts_after_provisioning Sim.manager "short.csv"
              Desk.short_csv ["username"; "email"; "role"; "department"]
              [Sim.row_of ["username"; "email"; "role"; "department"]
                 "alice,a@h.org,ClinicalAdmin,Cardiology"]
              (Sim.row_of ["username"; "email"; "role"; "department"]
                 "bob,b@h.org,DataAnalyst")
              [Sim.row_of ["username"; "email"; "role"; "department"]
                 "carol,c@h.org,DataAnalyst,"]
              (Desk.desk Sim.calm))
    as (results & s1 & s' & Hgood & _ & Hrun & Hcalls & _).
  - vm_compute. reflexivity.
  - vm_compute. reflexivity.
  - intros h Hh. unfold required_headers in Hh.
    apply elem_of_cons in Hh as [->|Hh]; [apply list_elem_of_here|].
    apply elem_of_cons in Hh as [->|Hh];
      [apply list_elem_of_further, list_elem_of_here|].
    apply elem_of_cons in Hh as [->|Hh];
      [apply list_elem_of_further, list_elem_of_further, list_elem_of_here|].
    by apply elem_of_nil in Hh.
  - apply Forall_cons_2; [|apply Forall_nil_2].
    split; [|split; by vm_compute].
    intros h Hh. unfold required_headers in Hh.
    apply elem_of_cons in Hh as [->|Hh]; [eexists; vm_compute; reflexivity|].
    apply elem_of_cons in Hh as [->|Hh]; [eexists; vm_compute; reflexivity|].
    apply elem_of_cons in Hh as [->|Hh]; [eexists; vm_compute; reflexivity|].
    by apply elem_of_nil in Hh.
  - intros (_ & Hd & _). apply Hd. vm_compute. reflexivity.
  - exists s'. split; [exact Hrun|]. rewrite Hcalls.
    vm_compute in Hgood. injection Hgood as _ <-. reflexivity.
Defined.

Lemma generate_report_without_path_witness :
  exists s',
    generate_report [] None (Sim.start Sim.calm) = (Ok tt, s')
    /\ State.files s' !! "audit.json"
       = Some (json_dump (audit_doc [] (first_reading Sim.calm))).
Proof.
  destruct (generate_report_without_path [] None (Sim.start Sim.calm))
    as (s' & Hrun & Hfiles).
  - left. reflexivity.
  - reflexivity.
  - exists s'. split; [exact Hrun|]. rewrite Hfiles. apply lookup_insert_eq.
Defined.

Lemma generate_report_keeps_csv_report_witness :
  exists s',
    generate_report [] (Some "report.csv") (Sim.start Sim.calm) = (Ok tt, s')
    /\ State.files s' !! "report.csv" = Some (csv_write report_fieldnames []).
Proof.
  destruct (generate_report_keeps_csv_report [] "report.csv" (Sim.start Sim.calm))
    as (s' & Hrun & _ & Hreport & _).
  - exists "report", "". reflexivity.
  - reflexivity.
  - reflexivity.
  - exists s'. split; [exact Hrun | exact Hreport].
Defined.

Lemma generate_report_survives_report_failure_witness :
  exists s',
    generate_report [] (Some "report.csv") (Sim.start Desk.report_locked) = (Ok tt, s')
    /\ State.files s' !! "report.csv" = None.
Proof.
  destruct (generate_report_survives_report_failure [] "report.csv"
              "[Errno 13] Permission denied: 'report.csv'" (Sim.start Desk.report_locked))
    as (s' & Hrun & Hfiles & _).
  - discriminate.
  - vm_compute. reflexivity.
  - vm_compute. reflexivity.
  - exists s'. split; [exact Hrun|]. rewrite Hfiles. vm_compute. reflexivity.
Defined.

Lemma main_exits_when_groups_cannot_be_loaded_witness :
  exists s',
    main (Args.parsed "users.csv" None None) (Desk.desk Desk.listing_down)
    = (Raise (SystemExit 1), s')
    /\ State.files s' = State.files (Desk.desk Desk.listing_down).
Proof.
  destruct (main_exits_when_groups_cannot_be_loaded (Args.parsed "users.csv" None None)
              [ ("user", "ocid1.user.oc1..operator");
                ("tenancy", "ocid1.tenancy.oc1..hospital");
                ("region", "us-ashburn-1") ]
              "ocid1.tenancy.oc1..hospital" Desk.listing_down Desk.listing_down
              Desk.listing_down Desk.refused (Desk.desk Desk.listing_down))
    as (s' & Hrun & _ & Hfiles).
  - reflexivity.
  - reflexivity.
  - reflexivity.
  - reflexivity.
  - exists s'. split; [exact Hrun | exact Hfiles].
Defined.

Lemma main_startup_failure_is_not_caught_witness :
  exists e s',
    main (Args.parsed "users.csv" None (Some "PRODUCTION")) (Desk.desk Sim.calm)
    = (Raise e, s')
    /\ State.calls s' = [].
Proof.
  destruct (main_startup_failure_is_not_caught
              (Args.parsed "users.csv" None (Some "PRODUCTION")) (Desk.desk Sim.calm))
    as (e & s' & Hrun & _ & Hcalls & _).
  - left. eexists _, _. reflexivity.
  - exists e, s'. split; [exact Hrun | exact Hcalls].
Defined.

Lemma main_completes_whatever_the_outcomes_witness :
  exists s',
    main (Args.parsed "users.csv" (Some "report.csv") None) (Desk.desk Sim.binding_down)
    = (Ok tt, s')
    /\ State.files s' !! "short.csv" = Some Desk.short_csv.
Proof.
  destruct (main_completes_whatever_the_outcomes
              (Args.parsed "users.csv" (Some "report.csv") None)
              [ ("user", "ocid1.user.oc1..operator");
                ("tenancy", "ocid1.tenancy.oc1..hospital");
                ("region", "us-ashburn-1") ]
              "ocid1.tenancy.oc1..hospital" Sim.hospital_groups
              Sim.binding_down Sim.binding_down Sim.binding_down
              Sim.users_csv ["username"; "email"; "role"; "department"]
              (csv_read Sim.users_csv).2 (Desk.desk Sim.binding_down))
    as (s' & new & before & Hrun & _ & _ & Hfiles & _).
  - reflexivity.
  - reflexivity.
  - reflexivity.
  - reflexivity.
  - vm_compute. reflexivity.
  - vm_compute. reflexivity.
  - intros h Hh. unfold required_headers in Hh.
    apply elem_of_cons in Hh as [->|Hh]; [apply list_elem_of_here|].
    apply elem_of_cons in Hh as [->|Hh];
      [apply list_elem_of_further, list_elem_of_here|].
    apply elem_of_cons in Hh as [->|Hh];
      [apply list_elem_of_further, list_elem_of_further, list_elem_of_here|].
    by apply elem_of_nil in Hh.
  - repeat apply Forall_cons_2; [..|apply Forall_nil_2];
      (split; [|split; by vm_compute]);
      intros h Hh; unfold required_headers in Hh;
      (apply elem_of_cons in Hh as [->|Hh]; [eexists; vm_compute; reflexivity|]);
      (apply elem_of_cons in Hh as [->|Hh]; [eexists; vm_compute; reflexivity|]);
      (apply elem_of_cons in Hh as [->|Hh]; [eexists; vm_compute; reflexivity|]);
      by apply elem_of_nil in Hh.
  - exists s'. split; [exact Hrun|]. rewrite Hfiles.
    + vm_compute. reflexivity.
    + discriminate.
    + vm_compute. discriminate.
Defined.

Lemma bulk_outcomes_carry_trimmed_fields_witness :
  exists results s',
    bulk_create_from_csv Sim.manager "users.csv" (Sim.start Sim.calm) = (Ok results, s')
    /\ length results = 3%nat.
Proof.
  destruct (bulk_outcomes_carry_trimmed_fields Sim.manager "users.csv" Sim.users_csv
              ["username"; "email"; "role"; "department"] (csv_read Sim.users_csv).2
              (Sim.start Sim.calm))
    as (results & s' & Hrun & Hall).
  - vm_compute. reflexivity.
  - vm_compute. reflexivity.
  - intros h Hh. unfold required_headers in Hh.
    apply elem_of_cons in Hh as [->|Hh]; [apply list_elem_of_here|].
    apply elem_of_cons in Hh as [->|Hh];
      [apply list_elem_of_further, list_elem_of_here|].
    apply elem_of_cons in Hh as [->|Hh];
      [apply list_elem_of_further, list_elem_of_further, list_elem_of_here|].
    by apply elem_of_nil in Hh.
  - repeat apply Forall_cons_2; [..|apply Forall_nil_2];
      (split; [|split; by vm_compute]);
      intros h Hh; unfold required_headers in Hh;
      (apply elem_of_cons in Hh as [->|Hh]; [eexists; vm_compute; reflexivity|]);
      (apply elem_of_cons in Hh as [->|Hh]; [eexists; vm_compute; reflexivity|]);
      (apply elem_of_cons in Hh as [->|Hh]; [eexists; vm_compute; reflexivity|]);
      by apply elem_of_nil in Hh.
  - exists results, s'. split; [exact Hrun|].
    apply Forall2_length in Hall. rewrite <- Hall. reflexivity.
Defined.

Lemma bulk_console_follows_the_attempts_witness :
  exists (runs : list (Result.t * list Event)) s',
    bulk_create_from_csv Sim.manager "users.csv" (Sim.start Sim.calm) = (Ok runs.*1, s')
    /\ length runs = 3%nat.
Proof.
  destruct (bulk_console_follows_the_attempts Sim.manager "users.csv" Sim.users_csv
              ["username"; "email"; "role"; "department"] (csv_read Sim.users_csv).2
              (Sim.start Sim.calm))
    as (runs & s' & Hrun & Hlen & _).
  - vm_compute. reflexivity.
  - vm_compute. reflexivity.
  - intros h Hh. unfold required_headers in Hh.
    apply elem_of_cons in Hh as [->|Hh]; [apply list_elem_of_here|].
    apply elem_of_cons in Hh as [->|Hh];
      [apply list_elem_of_further, list_elem_of_here|].
    apply elem_of_cons in Hh as [->|Hh];
      [apply list_elem_of_further, list_elem_of_further, list_elem_of_here|].
    by apply elem_of_nil in Hh.
  - repeat apply Forall_cons_2; [..|apply Forall_nil_2];
      (split; [|split; by vm_compute]);
      intros h Hh; unfold required_headers in Hh;
      (apply elem_of_cons in Hh as [->|Hh]; [eexists; vm_compute; reflexivity|]);
      (apply elem_of_cons in Hh as [->|Hh]; [eexists; vm_compute; reflexivity|]);
      (apply elem_of_cons in Hh as [->|Hh]; [eexists; vm_compute; reflexivity|]);
      by apply elem_of_nil in Hh.
  - exists runs, s'. split; [exact Hrun|]. rewrite Hlen. reflexivity.
Defined.

Lemma bulk_create_one_outcome_per_record_witness :
  exists results s',
    bulk_create_from_csv Sim.manager "users.csv" (Sim.start Sim.calm) = (Ok results, s')
    /\ length results = 3%nat
    /\ Forall2 (outcome_of Sim.manager) (record_of_row <$> (csv_read Sim.users_csv).2)
               results.
Proof.
  destruct (bulk_create_one_outcome_per_record Sim.manager "users.csv" Sim.users_csv
              ["username"; "email"; "role"; "department"] (csv_read Sim.users_csv).2
              (Sim.start Sim.calm))
    as (results & s' & Hrun & Hlen & Hall & _).
  - vm_compute. reflexivity.
  - vm_compute. reflexivity.
  - intros h Hh. each_header Hh;
      repeat ((by apply list_elem_of_here) || apply list_elem_of_further).
  - repeat apply Forall_cons_2; [..|apply Forall_nil_2];
      (split; [|split; by vm_compute]);
      intros h Hh; each_header Hh; eexists; vm_compute; reflexivity.
  - exists results, s'. split; [done|]. split; [|done]. by rewrite Hlen.
Defined.
